(** * reminder_app.py: scheduling and notification core

    A shallow embedding of [src/reminder_app.py].  The application keeps
    a dictionary of reminders, one monitoring thread per reminder, and a
    FIFO queue of notifications drained by one handler thread.  The
    threads are modelled as small-step machines over a shared state; a
    run is a list of scheduler choices.

    Conventions of the model:
    - text is ASCII ([string]); Python's [str] is Unicode;
    - each attribute read or write of a monitor is one step; a UI
      callback is one step (its work is done under [reminders_lock],
      and it is the only writer besides the monitor's own
      deactivation);
    - the wall clock never goes back;
    - Tk widgets, the saved file and the sound are only observed. *)

From Stdlib Require Import ZArith Ascii String List Bool Lia.
From stdpp Require Import base decidable option list strings gmap.

Local Open Scope string_scope.
Local Open Scope Z_scope.
Local Open Scope list_scope.

(** ** [datetime] values

    A naive [datetime] (no tzinfo), compared field by field as CPython
    does. *)
Module Datetime.

Record datetime : Type := mk_datetime {
  year : Z; month : Z; day : Z;
  hour : Z; minute : Z; second : Z; microsecond : Z
}.

#[global] Instance datetime_eq_dec : EqDecision datetime.
Proof. solve_decision. Defined.

Definition is_leap (y : Z) : bool :=
  (y mod 4 =? 0) && (negb (y mod 100 =? 0) || (y mod 400 =? 0)).

Definition days_in_month (y m : Z) : Z :=
  if m =? 2 then (if is_leap y then 29 else 28)
  else if (m =? 4) || (m =? 6) || (m =? 9) || (m =? 11) then 30
  else 31.

(** The range checks of the [datetime] constructor. *)
Definition valid_date (y m d : Z) : bool :=
  (1 <=? y) && (y <=? 9999) && (1 <=? m) && (m <=? 12) &&
  (1 <=? d) && (d <=? days_in_month y m).

Definition valid (t : datetime) : bool :=
  valid_date (year t) (month t) (day t) &&
  (0 <=? hour t) && (hour t <=? 23) &&
  (0 <=? minute t) && (minute t <=? 59) &&
  (0 <=? second t) && (second t <=? 59) &&
  (0 <=? microsecond t) && (microsecond t <=? 999999).

(** Lexicographic comparison of the seven fields. *)
Fixpoint lex_compare (l1 l2 : list Z) : comparison :=
  match l1, l2 with
  | x :: l1', y :: l2' =>
      match x ?= y with
      | Eq => lex_compare l1' l2'
      | c => c
      end
  | [], [] => Eq
  | [], _ :: _ => Lt
  | _ :: _, [] => Gt
  end.

Definition fields (t : datetime) : list Z :=
  [year t; month t; day t; hour t; minute t; second t; microsecond t].

Definition compare (a b : datetime) : comparison :=
  lex_compare (fields a) (fields b).

(** [a < b], [a > b], [a >= b] on datetimes. *)
Definition ltb (a b : datetime) : bool :=
  match compare a b with Lt => true | _ => false end.
Definition gtb (a b : datetime) : bool := ltb b a.
Definition geb (a b : datetime) : bool := negb (ltb a b).
Definition leb (a b : datetime) : bool := negb (ltb b a).

(** *** Digits *)

Definition digit_char (d : Z) : ascii := ascii_of_nat (Z.to_nat (48 + d)).

Definition digit_of (c : ascii) : option Z :=
  let n := Z.of_nat (nat_of_ascii c) in
  if (48 <=? n) && (n <=? 57) then Some (n - 48) else None.

Definition pad2 (n : Z) : string :=
  String (digit_char (n / 10)) (String (digit_char (n mod 10)) "").

Definition pad4 (n : Z) : string :=
  String (digit_char (n / 1000))
    (String (digit_char (n / 100 mod 10))
       (String (digit_char (n / 10 mod 10))
          (String (digit_char (n mod 10)) ""))).

(** [t.strftime("%Y-%m-%d %H:%M")]: zero-padded fields, seconds and
    microseconds are not printed. *)
Definition strftime (t : datetime) : string :=
  pad4 (year t) +:+ "-" +:+ pad2 (month t) +:+ "-" +:+ pad2 (day t) +:+ " " +:+
  pad2 (hour t) +:+ ":" +:+ pad2 (minute t).

(** [t.strftime("%Y-%m-%d")] and [t.strftime("%H:%M")], used to fill
    the edit form. *)
Definition strftime_date (t : datetime) : string :=
  pad4 (year t) +:+ "-" +:+ pad2 (month t) +:+ "-" +:+ pad2 (day t).
Definition strftime_time (t : datetime) : string :=
  pad2 (hour t) +:+ ":" +:+ pad2 (minute t).

(** *** [datetime.strptime(s, "%Y-%m-%d %H:%M")]

    CPython turns the format into the regular expression
    [(\d\d\d\d)-(1[0-2]|0[1-9]|[1-9])-(3[01]|[12]\d|0[1-9]|[1-9]| [1-9])\s+(2[0-3]|[0-1]\d|\d):([0-5]\d|\d)]
    matched at the start of the string; leftover text, or a date the
    constructor refuses, is a [ValueError] ([None] here).  Each field
    parser lists its matches in the order the alternation tries them,
    and [first_some] backtracks over them. *)

(** ASCII white space as [str.isspace] and [\s] see it. *)
Definition is_space (c : ascii) : bool :=
  let n := nat_of_ascii c in
  ((9 <=? n) && (n <=? 13))%nat || ((28 <=? n) && (n <=? 32))%nat.

Fixpoint first_some {A B : Type} (f : A → option B) (l : list A) : option B :=
  match l with
  | [] => None
  | x :: l' => match f x with Some y => Some y | None => first_some f l' end
  end.

Definition two_digits (s : string) : option (Z * Z * string) :=
  match s with
  | String c1 (String c2 rest) =>
      match digit_of c1, digit_of c2 with
      | Some d1, Some d2 => Some (d1, d2, rest)
      | _, _ => None
      end
  | _ => None
  end.

Definition one_digit (s : string) : option (Z * string) :=
  match s with
  | String c rest =>
      match digit_of c with Some d => Some (d, rest) | None => None end
  | _ => None
  end.

(** [\d\d\d\d] *)
Definition match_Y (s : string) : list (Z * string) :=
  match two_digits s with
  | Some (d1, d2, s') =>
      match two_digits s' with
      | Some (d3, d4, rest) => [(1000 * d1 + 100 * d2 + 10 * d3 + d4, rest)]
      | None => []
      end
  | None => []
  end.

(** A two-digit alternative guarded by [ok], then a one-digit one. *)
Definition match_2_1 (ok2 : Z → Z → bool) (ok1 : Z → bool) (s : string)
  : list (Z * string) :=
  match two_digits s with
  | Some (d1, d2, rest) => if ok2 d1 d2 then [(10 * d1 + d2, rest)] else []
  | None => []
  end ++
  match one_digit s with
  | Some (d, rest) => if ok1 d then [(d, rest)] else []
  | None => []
  end.

(** [1[0-2]|0[1-9]|[1-9]] *)
Definition match_m : string → list (Z * string) :=
  match_2_1 (λ d1 d2, ((d1 =? 1) && (d2 <=? 2)) || ((d1 =? 0) && (1 <=? d2)))
            (λ d, 1 <=? d).

(** [3[01]|[12]\d|0[1-9]|[1-9]| [1-9]] *)
Definition match_d (s : string) : list (Z * string) :=
  match_2_1 (λ d1 d2, ((d1 =? 3) && (d2 <=? 1)) || (d1 =? 1) || (d1 =? 2)
                      || ((d1 =? 0) && (1 <=? d2)))
            (λ d, 1 <=? d) s ++
  match s with
  | String " " s' =>
      match one_digit s' with
      | Some (d, rest) => if 1 <=? d then [(d, rest)] else []
      | None => []
      end
  | _ => []
  end.

(** [2[0-3]|[0-1]\d|\d] *)
Definition match_H : string → list (Z * string) :=
  match_2_1 (λ d1 d2, ((d1 =? 2) && (d2 <=? 3)) || (d1 =? 0) || (d1 =? 1))
            (λ _, true).

(** [[0-5]\d|\d] *)
Definition match_M : string → list (Z * string) :=
  match_2_1 (λ d1 _, d1 <=? 5) (λ _, true).

(** One literal character of the format. *)
Definition match_lit (c : ascii) (s : string) : option string :=
  match s with
  | String c' rest => if decide (c = c') then Some rest else None
  | _ => None
  end.

(** [\s+], greedy: the longest run first, then shorter ones. *)
Fixpoint match_spaces (s : string) : list string :=
  match s with
  | String c rest => if is_space c then match_spaces rest ++ [rest] else []
  | EmptyString => []
  end.

(** The regular-expression match: the first way to match a prefix of
    the text, with the text left over. *)
Definition strptime_match (s : string) : option (Z * Z * Z * Z * Z * string) :=
  first_some (λ '(y, s1),
    s2 ← match_lit "-" s1;
    first_some (λ '(m, s3),
      s4 ← match_lit "-" s3;
      first_some (λ '(d, s5),
        first_some (λ s6,
          first_some (λ '(h, s7),
            s8 ← match_lit ":" s7;
            first_some (λ '(mi, s9), Some (y, m, d, h, mi, s9))
              (match_M s8)) (match_H s6)) (match_spaces s5))
        (match_d s4)) (match_m s2)) (match_Y s).

(** [None] stands for the [ValueError]: no match, unconverted data
    remains, or a date out of range. *)
Definition strptime (s : string) : option datetime :=
  match strptime_match s with
  | Some (y, m, d, h, mi, EmptyString) =>
      if valid_date y m d then Some (mk_datetime y m d h mi 0 0) else None
  | _ => None
  end.

(** What a minute-precision text keeps of a datetime. *)
Definition truncate_minute (t : datetime) : datetime :=
  mk_datetime (year t) (month t) (day t) (hour t) (minute t) 0 0.

End Datetime.

Import Datetime.

(** [str.strip()] on ASCII text. *)
Fixpoint lstrip (s : string) : string :=
  match s with
  | String c rest => if is_space c then lstrip rest else s
  | EmptyString => EmptyString
  end.

Fixpoint rstrip (s : string) : string :=
  match s with
  | String c rest =>
      match rstrip rest with
      | EmptyString => if is_space c then EmptyString else String c EmptyString
      | r => String c r
      end
  | EmptyString => EmptyString
  end.

Definition strip (s : string) : string := rstrip (lstrip s).

(** ** The data model *)

(** [class Reminder]; the field [id] of the source is [reminder_id]. *)
Record Reminder : Type := mk_Reminder {
  reminder_id : string;
  title : string;
  description : string;
  trigger_time : datetime;
  is_active : bool
}.

(** One entry of [reminders.json], as [to_dict] writes it. *)
Record reminder_data : Type := mk_reminder_data {
  d_id : string;
  d_title : string;
  d_description : string;
  d_trigger_time : string;
  d_is_active : bool
}.

(** The dictionary a monitor puts on the queue. *)
Record Notification : Type := mk_Notification {
  n_title : string;
  n_description : string
}.

Inductive exn : Type :=
  | KeyError (key : string)
  | ValueError
  | TypeError (msg : string).

#[global] Instance Reminder_eq_dec : EqDecision Reminder.
Proof. solve_decision. Defined.
#[global] Instance reminder_data_eq_dec : EqDecision reminder_data.
Proof. solve_decision. Defined.
#[global] Instance Notification_eq_dec : EqDecision Notification.
Proof. solve_decision. Defined.
#[global] Instance exn_eq_dec : EqDecision exn.
Proof. solve_decision. Defined.

Definition to_dict (r : Reminder) : reminder_data :=
  {| d_id := reminder_id r;
     d_title := title r;
     d_description := description r;
     d_trigger_time := strftime (trigger_time r);
     d_is_active := is_active r |}.

(** *** Calling [Reminder(...)] with keyword arguments

    [__init__(self, title, description, trigger_time)] binds keywords to
    its three parameters; an unknown keyword or a missing parameter is
    a [TypeError].  [uuid] is the value [uuid.uuid4()] would return. *)
Inductive pyval : Type :=
  | VStr (s : string)
  | VBool (b : bool)
  | VTime (t : datetime).

Definition Reminder_init_params : list string :=
  ["title"; "description"; "trigger_time"].

Fixpoint kw_lookup (k : string) (kwargs : list (string * pyval)) : option pyval :=
  match kwargs with
  | [] => None
  | (k', v) :: rest => if decide (k = k') then Some v else kw_lookup k rest
  end.

Definition unexpected_keyword (kwargs : list (string * pyval)) : option string :=
  head (filter (λ k, k ∉ Reminder_init_params) (map fst kwargs)).

Definition Reminder_init (uuid : string) (kwargs : list (string * pyval))
  : exn + Reminder :=
  match unexpected_keyword kwargs with
  | Some k => inl (TypeError ("unexpected keyword argument " +:+ k))
  | None =>
      match kw_lookup "title" kwargs, kw_lookup "description" kwargs,
            kw_lookup "trigger_time" kwargs with
      | Some (VStr t), Some (VStr d), Some (VTime trig) =>
          inr (mk_Reminder uuid t d trig true)
      | _, _, _ => inl (TypeError "missing required positional argument")
      end
  end.

(** [Reminder.from_dict]: the arguments are evaluated left to right
    (so [strptime] may raise first), then the call is made. *)
Definition from_dict (uuid : string) (data : reminder_data) : exn + Reminder :=
  match strptime (d_trigger_time data) with
  | None => inl ValueError
  | Some trig =>
      Reminder_init uuid
        [("title", VStr (d_title data));
         ("description", VStr (d_description data));
         ("trigger_time", VTime trig);
         ("reminder_id", VStr (d_id data));
         ("is_active", VBool (d_is_active data))]
  end.

(** ** The application state *)

(** Where a monitoring thread stands in [_monitor_reminder]. *)
Inductive pc : Type :=
  | MLoopTest        (* while not self.stop_event.is_set() *)
  | MLookup          (* self.monitoring_threads[reminder.id] *)
  | MNow             (* current_time = datetime.now() *)
  | MCheckInactive   (* if not reminder.is_active: break *)
  | MCheckDue        (* current_time >= reminder.trigger_time *)
  | MCheckActive     (* ... and reminder.is_active *)
  | MPut             (* self.notification_queue.put(...) *)
  | MDeactivate      (* with self.reminders_lock: reminder.is_active = False *)
  | MSleep           (* time.sleep(1) *)
  | MExited          (* left the loop *)
  | MCrashed.        (* ended by an uncaught exception *)

#[global] Instance pc_eq_dec : EqDecision pc.
Proof. solve_decision. Defined.

(** A monitoring thread: the [Reminder] object it was started with (an
    index in the heap), its position, and its local [current_time]
    (read only after [MNow] has assigned it). *)
Record Monitor : Type := mk_Monitor {
  m_reminder : nat;
  m_pc : pc;
  m_current_time : datetime
}.

(** [self.editing_reminder_id]: absent until the first edit, then an
    id or [None]. *)
Inductive EditAttr : Type :=
  | NoAttr
  | AttrNone
  | AttrId (rid : string).

(** [hasattr(self, 'editing_reminder_id') and self.editing_reminder_id]:
    the empty string is falsy. *)
Definition editing (e : EditAttr) : option string :=
  match e with
  | AttrId rid => if decide (rid = "") then None else Some rid
  | _ => None
  end.

(** Where the handler thread stands in [_handle_notifications]. *)
Inductive hpc : Type :=
  | HLoopTest        (* while not self.stop_event.is_set() *)
  | HGet             (* self.notification_queue.get(timeout=1) *)
  | HExited.

(** [Reminder] objects are shared between the dictionary and the
    monitors, so they live in [heap] and are named by their index. *)
Record App : Type := mk_App {
  heap : list Reminder;
  reminders : gmap string nat;
  monitoring_threads : gmap string nat;
  threads : list Monitor;
  notification_queue : list Notification;
  stop_event : bool;
  editing_reminder_id : EditAttr;
  handler : hpc;
  now : datetime
}.

Definition with_heap (h : list Reminder) (s : App) : App :=
  mk_App h (reminders s) (monitoring_threads s) (threads s)
    (notification_queue s) (stop_event s) (editing_reminder_id s)
    (handler s) (now s).
Definition with_reminders (m : gmap string nat) (s : App) : App :=
  mk_App (heap s) m (monitoring_threads s) (threads s)
    (notification_queue s) (stop_event s) (editing_reminder_id s)
    (handler s) (now s).
Definition with_monitoring_threads (m : gmap string nat) (s : App) : App :=
  mk_App (heap s) (reminders s) m (threads s)
    (notification_queue s) (stop_event s) (editing_reminder_id s)
    (handler s) (now s).
Definition with_threads (t : list Monitor) (s : App) : App :=
  mk_App (heap s) (reminders s) (monitoring_threads s) t
    (notification_queue s) (stop_event s) (editing_reminder_id s)
    (handler s) (now s).
Definition with_queue (q : list Notification) (s : App) : App :=
  mk_App (heap s) (reminders s) (monitoring_threads s) (threads s)
    q (stop_event s) (editing_reminder_id s) (handler s) (now s).
Definition with_stop_event (b : bool) (s : App) : App :=
  mk_App (heap s) (reminders s) (monitoring_threads s) (threads s)
    (notification_queue s) b (editing_reminder_id s) (handler s) (now s).
Definition with_editing (e : EditAttr) (s : App) : App :=
  mk_App (heap s) (reminders s) (monitoring_threads s) (threads s)
    (notification_queue s) (stop_event s) e (handler s) (now s).
Definition with_handler (h : hpc) (s : App) : App :=
  mk_App (heap s) (reminders s) (monitoring_threads s) (threads s)
    (notification_queue s) (stop_event s) (editing_reminder_id s) h (now s).
Definition with_now (t : datetime) (s : App) : App :=
  mk_App (heap s) (reminders s) (monitoring_threads s) (threads s)
    (notification_queue s) (stop_event s) (editing_reminder_id s)
    (handler s) t.

(** What a step shows to the outside. *)
Inductive Obs : Type :=
  | ShowError (msg : string)              (* messagebox.showerror *)
  | ShowInfo (msg : string)               (* messagebox.showinfo *)
  | Saved (file : list reminder_data)     (* _save_reminders *)
  | Enqueued (tid : nat) (rid : string) (n : Notification)
                                          (* queue.put by the monitor of rid *)
  | Dispatched (n : Notification)         (* the handler got n *)
  | MainRaised (e : exn)                  (* uncaught in a UI callback *)
  | ThreadRaised (tid : nat) (e : exn).   (* uncaught in a monitor *)

(** [ReminderApp.__init__] before [_load_reminders]; [t] is the wall
    clock. *)
Definition init_app (t : datetime) : App :=
  mk_App [] ∅ ∅ [] [] false NoAttr HLoopTest t.

(** [threading.Thread(target=self._monitor_reminder, args=(reminder,))],
    recorded under the reminder's id and started. *)
Definition start_monitor (ref : nat) (rid : string) (s : App) : App :=
  with_monitoring_threads (<[rid := length (threads s)]> (monitoring_threads s))
    (with_threads (threads s ++ [mk_Monitor ref MLoopTest (now s)]) s).

(** A new [Reminder] object stored under its id. *)
Definition store_new (r : Reminder) (s : App) : App :=
  with_reminders (<[reminder_id r := length (heap s)]> (reminders s))
    (with_heap (heap s ++ [r]) s).

(** ** [_load_reminders] *)

(** The body of the [for] loop; [None] when it raises. *)
Definition load_one (s : App) (d : reminder_data) : option App :=
  trig ← strptime (d_trigger_time d);
  let active := if gtb (now s) trig then false else d_is_active d in
  let r := mk_Reminder (d_id d) (d_title d) (d_description d) trig active in
  let ref := length (heap s) in
  let s1 := store_new r s in
  Some (if active then start_monitor ref (d_id d) s1 else s1).

(** The loop inside [try]: an exception ends it and is only printed. *)
Fixpoint load_all (s : App) (ds : list reminder_data) : App :=
  match ds with
  | [] => s
  | d :: ds' =>
      match load_one s d with
      | Some s' => load_all s' ds'
      | None => s
      end
  end.

(** [file] is [None] when [reminders.json] does not exist. *)
Definition _load_reminders (s : App) (file : option (list reminder_data)) : App :=
  match file with
  | Some ds => load_all s ds
  | None => s
  end.

(** The application once [__init__] has returned. *)
Definition startup (t : datetime) (file : option (list reminder_data)) : App :=
  _load_reminders (init_app t) file.

(** [_save_reminders]: the entries written (in key order here; Python
    writes them in insertion order). *)
Definition _save_reminders (s : App) : list reminder_data :=
  omap (λ kv, to_dict <$> heap s !! kv.2) (map_to_list (reminders s)).

(** ** The UI callbacks

    Each callback runs on the Tk main thread; the block it executes
    under [reminders_lock] is one step of the model. *)

(** The contents of the input form when "Add Reminder" is pressed. *)
Record Form : Type := mk_Form {
  title_entry : string;
  description_entry : string;
  date_picker : string;
  time_entry : string
}.

(** The text of the last message box of [_add_reminder]:
    ["added" if not hasattr(self, 'editing_reminder_id') else "updated"]. *)
Definition success_message (e : EditAttr) : string :=
  match e with
  | NoAttr => "Reminder added successfully!"
  | _ => "Reminder updated successfully!"
  end.

(** [_add_reminder]; [uuid] is what [uuid.uuid4()] returns if a new
    [Reminder] is built. *)
Definition _add_reminder (s : App) (f : Form) (uuid : string) : App * list Obs :=
  let title := strip (title_entry f) in
  let description := strip (description_entry f) in
  let date_str := date_picker f in
  let time_str := strip (time_entry f) in
  if decide (title = "") then (s, [ShowError "Title cannot be empty"])
  else
    match strptime (date_str +:+ " " +:+ time_str) with
    | None => (s, [ShowError "Invalid time format. Use HH:MM (24-hour)"])
    | Some trigger_time =>
        if ltb trigger_time (now s)
        then (s, [ShowError "You cannot set a reminder in the past."])
        else
          let msg := success_message (editing_reminder_id s) in
          match editing (editing_reminder_id s) with
          | Some rid =>
              (* Editing an existing reminder *)
              match reminders s !! rid with
              | None => (s, [MainRaised (KeyError rid)])
              | Some ref =>
                  let s' :=
                    with_editing AttrNone
                      (with_heap
                         (alter (λ r, mk_Reminder (reminder_id r) title
                                        description trigger_time true)
                                ref (heap s)) s) in
                  (s', [Saved (_save_reminders s'); ShowInfo msg])
              end
          | None =>
              (* Adding a new reminder *)
              let r := mk_Reminder uuid title description trigger_time true in
              let s' := start_monitor (length (heap s)) uuid (store_new r s) in
              (s', [Saved (_save_reminders s'); ShowInfo msg])
          end
    end.

(** [_edit_reminder]: enters edit mode for the next [_add_reminder]. *)
Definition _edit_reminder (s : App) (rid : string) : App * list Obs :=
  match reminders s !! rid with
  | None => (s, [ShowError "Reminder not found."])
  | Some _ => (with_editing (AttrId rid) s, [])
  end.

(** The form as [_edit_reminder] fills it from the stored reminder. *)
Definition edit_form (r : Reminder) : Form :=
  mk_Form (title r) (description r)
    (strftime_date (trigger_time r)) (strftime_time (trigger_time r)).

Definition deactivate (r : Reminder) : Reminder :=
  mk_Reminder (reminder_id r) (title r) (description r) (trigger_time r) false.

(** [_remove_reminder] *)
Definition _remove_reminder (s : App) (rid : string) : App * list Obs :=
  match reminders s !! rid with
  | None => (s, [ShowError "Reminder not found or already removed."])
  | Some ref =>
      let s' :=
        with_monitoring_threads (delete rid (monitoring_threads s))
          (with_heap (alter deactivate ref (heap s))
             (with_reminders (delete rid (reminders s)) s)) in
      (s', [Saved (_save_reminders s'); ShowInfo "Reminder removed."])
  end.

(** [on_closing] *)
Definition on_closing (s : App) : App := with_stop_event true s.

(** ** The threads *)

Definition goto (tid : nat) (th : Monitor) (p : pc) (s : App) : App :=
  with_threads
    (<[tid := mk_Monitor (m_reminder th) p (m_current_time th)]> (threads s)) s.

(** One step of the monitoring thread [tid] in [_monitor_reminder]. *)
Definition _monitor_reminder (s : App) (tid : nat) : App * list Obs :=
  match threads s !! tid with
  | None => (s, [])
  | Some th =>
      match heap s !! m_reminder th with
      | None => (s, [])
      | Some reminder =>
          match m_pc th with
          | MLoopTest =>
              if stop_event s then (goto tid th MExited s, [])
              else (goto tid th MLookup s, [])
          | MLookup =>
              match monitoring_threads s !! reminder_id reminder with
              | Some _ => (goto tid th MNow s, [])
              | None =>
                  (goto tid th MCrashed s,
                   [ThreadRaised tid (KeyError (reminder_id reminder))])
              end
          | MNow =>
              (with_threads
                 (<[tid := mk_Monitor (m_reminder th) MCheckInactive (now s)]>
                    (threads s)) s, [])
          | MCheckInactive =>
              if is_active reminder then (goto tid th MCheckDue s, [])
              else (goto tid th MExited s, [])
          | MCheckDue =>
              if geb (m_current_time th) (trigger_time reminder)
              then (goto tid th MCheckActive s, [])
              else (goto tid th MSleep s, [])
          | MCheckActive =>
              if is_active reminder then (goto tid th MPut s, [])
              else (goto tid th MSleep s, [])
          | MPut =>
              let n := mk_Notification (title reminder) (description reminder) in
              (goto tid th MDeactivate
                 (with_queue (notification_queue s ++ [n]) s),
               [Enqueued tid (reminder_id reminder) n])
          | MDeactivate =>
              (goto tid th MExited
                 (with_heap (alter deactivate (m_reminder th) (heap s)) s), [])
          | MSleep => (goto tid th MLoopTest s, [])
          | MExited | MCrashed => (s, [])
          end
      end
  end.

(** One step of the handler thread in [_handle_notifications]; at
    [HGet] with an empty queue the step is the one-second timeout. *)
Definition _handle_notifications (s : App) : App * list Obs :=
  match handler s with
  | HLoopTest =>
      if stop_event s then (with_handler HExited s, [])
      else (with_handler HGet s, [])
  | HGet =>
      match notification_queue s with
      | n :: q => (with_handler HLoopTest (with_queue q s), [Dispatched n])
      | [] => (with_handler HLoopTest s, [])
      end
  | HExited => (s, [])
  end.

(** ** Runs *)

(** What the scheduler, the user and the clock can do next. *)
Inductive Action : Type :=
  | AAdd (f : Form) (uuid : string)   (* the "Add Reminder" button *)
  | AEdit (rid : string)              (* an "Edit" button *)
  | ARemove (rid : string)            (* a "Remove" button *)
  | AClose                            (* the window is closed *)
  | AMonitor (tid : nat)              (* monitor tid runs one step *)
  | AHandler                          (* the handler runs one step *)
  | ATick (t : datetime).             (* the wall clock reaches t (it never
                                         goes back) *)

Definition step (s : App) (a : Action) : App * list Obs :=
  match a with
  | AAdd f uuid => _add_reminder s f uuid
  | AEdit rid => _edit_reminder s rid
  | ARemove rid => _remove_reminder s rid
  | AClose => (on_closing s, [])
  | AMonitor tid => _monitor_reminder s tid
  | AHandler => _handle_notifications s
  | ATick t => (if leb (now s) t then with_now t s else s, [])
  end.

Fixpoint run (s : App) (acts : list Action) : App * list Obs :=
  match acts with
  | [] => (s, [])
  | a :: acts' =>
      let '(s1, o1) := step s a in
      let '(s2, o2) := run s1 acts' in
      (s2, o1 ++ o2)
  end.

(** The ids for which a trace shows a notification being enqueued, in
    order. *)
Definition enqueued_ids (os : list Obs) : list string :=
  omap (λ o, match o with Enqueued _ rid _ => Some rid | _ => None end) os.

Definition enqueued (os : list Obs) : list Notification :=
  omap (λ o, match o with Enqueued _ _ n => Some n | _ => None end) os.

Definition dispatched (os : list Obs) : list Notification :=
  omap (λ o, match o with Dispatched n => Some n | _ => None end) os.

(** [uuid.uuid4()] never repeats an id: an add that builds a
    [Reminder] gets an id no object carries yet. *)
Definition fresh_action (s : App) (a : Action) : bool :=
  match a with
  | AAdd _ uuid => bool_decide (uuid ∉ map reminder_id (heap s))
  | _ => true
  end.

Fixpoint fresh_run (s : App) (acts : list Action) : bool :=
  match acts with
  | [] => true
  | a :: acts' => fresh_action s a && fresh_run (step s a).1 acts'
  end.

(** ** Invariants of the reachable states *)

(** The ids of the [Reminder] objects ever built, by heap index. *)
Definition heap_ids (s : App) : list string := map reminder_id (heap s).

(** A monitor that has not yet gone past its [put]. *)
Definition may_put (p : pc) : bool :=
  match p with
  | MDeactivate | MExited | MCrashed => false
  | _ => true
  end.

Definition live_id (ids : list string) (th : Monitor) : option string :=
  if may_put (m_pc th) then ids !! m_reminder th else None.

(** The ids whose monitor may still enqueue. *)
Definition live_ids (s : App) : list string :=
  omap (live_id (heap_ids s)) (threads s).

(** Ids name objects uniquely, monitors point into the heap, and the
    dictionary files each object under its own id. *)
Record wf (s : App) : Prop := mk_wf {
  wf_ids : NoDup (heap_ids s);
  wf_refs : Forall (λ th, (m_reminder th < length (heap s))%nat) (threads s);
  wf_store : ∀ k ref, reminders s !! k = Some ref → heap_ids s !! ref = Some k
}.

(** [done] lists the ids already enqueued: none of them has a monitor
    that may still enqueue, and no two such monitors share an id. *)
Definition budget (done : list string) (s : App) : Prop :=
  NoDup (done ++ live_ids s) ∧ ∀ x, x ∈ done → x ∈ heap_ids s.

(** The reminder [rid] has left the store: the object a monitor
    watches under that id is inactive, and the monitor does not stand
    at its [put]. *)
Definition removed (rid : string) (s : App) : Prop :=
  reminders s !! rid = None ∧
  rid ∈ heap_ids s ∧
  ∀ tid th r, threads s !! tid = Some th →
              heap s !! m_reminder th = Some r →
              reminder_id r = rid →
              m_pc th ≠ MPut ∧ is_active r = false.

(** A monitor holds a clock reading from [MCheckInactive] on, and has
    compared it with the trigger time from [MCheckActive] on. *)
Definition has_read_clock (p : pc) : bool :=
  match p with
  | MCheckInactive | MCheckDue | MCheckActive | MPut => true
  | _ => false
  end.

Definition has_seen_due (p : pc) : bool :=
  match p with
  | MCheckActive | MPut => true
  | _ => false
  end.

(** As long as [rid] is not being edited, what its monitor has seen of
    the clock still holds of the stored trigger time. *)
Definition deadline_sound (rid : string) (s : App) : Prop :=
  editing_reminder_id s ≠ AttrId rid ∧
  ∀ tid th r, threads s !! tid = Some th →
              heap s !! m_reminder th = Some r →
              reminder_id r = rid →
              (has_read_clock (m_pc th) = true →
               leb (m_current_time th) (now s) = true) ∧
              (has_seen_due (m_pc th) = true →
               geb (m_current_time th) (trigger_time r) = true).

(** The actions of a run that do not open [rid] for editing. *)
Definition not_edit (rid : string) (a : Action) : bool :=
  match a with
  | AEdit rid' => bool_decide (rid' ≠ rid)
  | _ => true
  end.

(** ** Sample inputs *)

Definition tea_at_10_05 : Form := mk_Form "Tea" "" "2024-01-01" "10:05".
Definition ten_o_clock : datetime := mk_datetime 2024 1 1 10 0 0 0.
Definition five_past_ten : datetime := mk_datetime 2024 1 1 10 5 0 0.

(** The reminder is added for 10:05, fires, and is then edited to
    11:00. *)
Definition edit_after_firing : list Action :=
  [AAdd tea_at_10_05 "u1"; ATick five_past_ten]
  ++ replicate 8 (AMonitor 0)
  ++ [AEdit "u1"; AAdd (mk_Form "Tea" "" "2024-01-01" "11:00") "u2"].

(** ** Further invariants and conditions *)

(** A valid datetime with zero seconds and microseconds. *)
Definition minute_precise (t : datetime) : bool :=
  valid t && (second t =? 0) && (microsecond t =? 0).

(** No two monitors were started with the same [Reminder] object. *)
Definition one_monitor_each (s : App) : Prop :=
  NoDup (map m_reminder (threads s)).

Definition triggers_to_the_minute (s : App) : Prop :=
  Forall (λ r, minute_precise (trigger_time r) = true) (heap s).

(** The state [s] with monitor [tid], started with object [ref],
    standing at [p] with clock reading [c]. *)
Definition at_pc (tid ref : nat) (p : pc) (c : datetime) (s : App) : App :=
  with_threads (<[tid := mk_Monitor ref p c]> (threads s)) s.

(** A monitor that will test [stop_event] before it can enqueue. *)
Definition between_iterations (p : pc) : bool :=
  match p with
  | MLoopTest | MSleep | MDeactivate | MExited | MCrashed => true
  | _ => false
  end.

Definition closing (s : App) : Prop :=
  stop_event s = true ∧
  Forall (λ th, between_iterations (m_pc th) = true) (threads s).

Definition handler_closing (s : App) : Prop :=
  stop_event s = true ∧ handler s ≠ HGet.

(** The form passes the checks of [_add_reminder], with trigger time
    [trig]. *)
Definition accepted (s : App) (f : Form) (trig : datetime) : Prop :=
  strip (title_entry f) ≠ "" ∧
  strptime (date_picker f +:+ " " +:+ strip (time_entry f)) = Some trig ∧
  ltb trig (now s) = false.

(** The reminder [rid] is out of the store and every object carrying
    its id is inactive. *)
Definition gone (rid : string) (s : App) : Prop :=
  reminders s !! rid = None ∧
  ∀ ref r, heap s !! ref = Some r → reminder_id r = rid → is_active r = false.

(** ** Further sample inputs *)

(** A file with one reminder still to come and one an hour old. *)
Definition sample_file : list reminder_data :=
  [mk_reminder_data "r0" "Walk" "" "2024-01-01 10:30" true;
   mk_reminder_data "r1" "Pills" "" "2024-01-01 09:00" true].

(** The application started on [sample_file] at ten, with "Tea" added
    for 10:05: objects 0, 1, 2 and monitors 0 (of "r0") and 1 (of
    "u1"), both at their loop test. *)
Definition sample_run : list Action := [AAdd tea_at_10_05 "u1"].
Abbreviation sample_state :=
  ((run (startup ten_o_clock (Some sample_file)) sample_run).1).

(** The same with the clock at 10:05. *)
Definition sample_due : App := with_now five_past_ten sample_state.

(** The same once the monitor of "u1" has fired. *)
Definition sample_fired : App :=
  (run sample_due (replicate 8 (AMonitor 1))).1.

Definition tea_reminder : Reminder :=
  mk_Reminder "u1" "Tea" "" five_past_ten true.

(** ** Proof automation *)

(** Projections of updated states. *)
Ltac proj_simpl :=
  cbn [heap reminders monitoring_threads threads notification_queue stop_event
       editing_reminder_id handler now with_heap with_reminders
       with_monitoring_threads with_threads with_queue with_stop_event
       with_editing with_handler with_now goto on_closing fst snd] in *.

Ltac step_cases a :=
  destruct a; cbn [step];
  [ unfold _add_reminder | unfold _edit_reminder | unfold _remove_reminder
  | | unfold _monitor_reminder | unfold _handle_notifications | ];
  repeat case_match; proj_simpl.

(** * Properties *)

(** ** The model at work *)

Example strptime_canonical :
  strptime "2024-03-09 07:05" = Some (mk_datetime 2024 3 9 7 5 0 0).
Proof. vm_compute. reflexivity. Qed.

Example strptime_short_fields :
  strptime "2024-3-9  7:5" = Some (mk_datetime 2024 3 9 7 5 0 0).
Proof. vm_compute. reflexivity. Qed.

Example strptime_no_such_day : strptime "2023-02-29 07:05" = None.
Proof. vm_compute. reflexivity. Qed.

Example strptime_text_left_over : strptime "2024-03-09 07:05:00" = None.
Proof. vm_compute. reflexivity. Qed.

Example strptime_hour_24 : strptime "2024-03-09 24:00" = None.
Proof. vm_compute. reflexivity. Qed.

Example strftime_to_the_minute :
  strftime (mk_datetime 2024 3 9 7 5 42 17) = "2024-03-09 07:05".
Proof. vm_compute. reflexivity. Qed.

Example strip_both_ends : strip "  a b  " = "a b".
Proof. vm_compute. reflexivity. Qed.

(** A reminder added for 10:05 fires once the clock is there: one
    notification is enqueued, the handler takes it, and the reminder
    ends inactive. *)
Example fires_once :
  let r := run (startup ten_o_clock None)
             ([AAdd tea_at_10_05 "u1"] ++ replicate 5 (AMonitor 0)
              ++ [ATick five_past_ten] ++ replicate 9 (AMonitor 0)
              ++ [AHandler; AHandler] ++ replicate 3 (AMonitor 0)) in
  enqueued_ids r.2 = ["u1"] ∧
  dispatched r.2 = [mk_Notification "Tea" ""] ∧
  notification_queue r.1 = [] ∧
  heap r.1 = [mk_Reminder "u1" "Tea" "" five_past_ten false] ∧
  m_pc <$> threads r.1 = [MExited].
Proof. vm_compute. repeat split; reflexivity. Qed.

(** A reminder saved an hour ago is loaded inactive and without a
    monitor. *)
Example loads_past_due :
  let s := startup ten_o_clock
             (Some [mk_reminder_data "r1" "Pills" "" "2024-01-01 09:00" true]) in
  heap s = [mk_Reminder "r1" "Pills" "" (mk_datetime 2024 1 1 9 0 0 0) false] ∧
  threads s = [].
Proof. vm_compute. split; reflexivity. Qed.

(** ** Text round trip of [datetime] *)

Section DatetimeText.

Arguments digit_char : simpl never.

Local Ltac digit_cases d :=
  let Hd := fresh "Hd" in
  assert (d = 0 ∨ d = 1 ∨ d = 2 ∨ d = 3 ∨ d = 4 ∨
          d = 5 ∨ d = 6 ∨ d = 7 ∨ d = 8 ∨ d = 9) as Hd by lia;
  repeat destruct Hd as [-> | Hd]; try subst d.

Local Ltac field_ok := Z.div_mod_to_equations; lia.

Lemma digit_of_digit_char d : 0 <= d <= 9 → digit_of (digit_char d) = Some d.
Proof. intros H. digit_cases d; reflexivity. Qed.

Lemma is_space_digit_char d : 0 <= d <= 9 → is_space (digit_char d) = false.
Proof. intros H. digit_cases d; reflexivity. Qed.

Lemma two_digits_pad a b rest :
  0 <= a <= 9 → 0 <= b <= 9 →
  two_digits (String (digit_char a) (String (digit_char b) rest))
  = Some (a, b, rest).
Proof.
  intros Ha Hb. unfold two_digits. by rewrite !digit_of_digit_char.
Qed.

Lemma first_some_hd {A B} (f : A → option B) l x tl y :
  l = x :: tl → f x = Some y → first_some f l = Some y.
Proof. intros -> H. simpl. by rewrite H. Qed.

Lemma first_some_app_l {A B} (f : A → option B) l1 l2 y :
  first_some f l1 = Some y → first_some f (l1 ++ l2) = Some y.
Proof.
  induction l1 as [|x l1 IH]; simpl; [done|].
  destruct (f x); [done | apply IH].
Qed.

Lemma match_Y_pad4 y rest :
  1 <= y <= 9999 →
  match_Y (String (digit_char (y / 1000))
            (String (digit_char (y / 100 mod 10))
              (String (digit_char (y / 10 mod 10))
                (String (digit_char (y mod 10)) rest)))) = [(y, rest)].
Proof.
  intros H. unfold match_Y.
  rewrite !two_digits_pad by field_ok.
  do 2 f_equal. field_ok.
Qed.

Lemma first_some_match_2_1 {B} (f : Z * string → option B) ok2 ok1 n rest y :
  0 <= n <= 99 → ok2 (n / 10) (n mod 10) = true → f (n, rest) = Some y →
  first_some f (match_2_1 ok2 ok1
                  (String (digit_char (n / 10))
                     (String (digit_char (n mod 10)) rest))) = Some y.
Proof.
  intros H Hok Hf. unfold match_2_1.
  rewrite two_digits_pad by field_ok. rewrite Hok.
  apply first_some_app_l. simpl.
  replace (10 * (n / 10) + n mod 10) with n by field_ok.
  by rewrite Hf.
Qed.

Lemma first_some_spaces {B} (f : string → option B) a rest y :
  0 <= a <= 9 → f (String (digit_char a) rest) = Some y →
  first_some f (match_spaces (String " " (String (digit_char a) rest)))
  = Some y.
Proof.
  intros H Hf. simpl. rewrite is_space_digit_char by done.
  simpl. by rewrite Hf.
Qed.

Lemma day_le_31 y m d : valid_date y m d = true → 1 <= d <= 31.
Proof.
  unfold valid_date, days_in_month. intros H.
  repeat (apply andb_prop in H as [H ?]).
  repeat case_match; lia.
Qed.

Lemma strptime_match_strftime t :
  valid t = true →
  strptime_match (strftime t)
  = Some (year t, month t, day t, hour t, minute t, EmptyString).
Proof.
  intros Hv. unfold valid in Hv.
  do 8 (apply andb_prop in Hv as [Hv ?]).
  pose proof (day_le_31 _ _ _ Hv) as Hd.
  unfold valid_date in Hv. do 5 (apply andb_prop in Hv as [Hv ?]).
  unfold strptime_match, strftime, pad2, pad4. cbn [append].
  eapply first_some_hd; [apply match_Y_pad4; lia|].
  cbn [match_lit mbind option_bind].
  unfold match_m. apply first_some_match_2_1; [lia | field_ok |].
  cbn [match_lit mbind option_bind].
  unfold match_d. apply first_some_app_l.
  apply first_some_match_2_1; [lia | field_ok |].
  apply first_some_spaces; [field_ok|].
  unfold match_H. apply first_some_match_2_1; [lia | field_ok |].
  cbn [match_lit mbind option_bind].
  unfold match_M. apply first_some_match_2_1; [lia | field_ok |].
  reflexivity.
Qed.

Lemma strptime_strftime t :
  valid t = true → strptime (strftime t) = Some (truncate_minute t).
Proof.
  intros Hv. unfold strptime. rewrite strptime_match_strftime by done.
  unfold valid in Hv. do 8 (apply andb_prop in Hv as [Hv _]).
  by rewrite Hv.
Qed.

Lemma truncate_minute_id t :
  truncate_minute t = t ↔ second t = 0 ∧ microsecond t = 0.
Proof.
  destruct t as [y m d h mi sec us]. unfold truncate_minute. simpl. split.
  - intros E. by injection E as <- <-.
  - by intros [-> ->].
Qed.

End DatetimeText.



(** ** Input validation in [_add_reminder] *)

(** C7. When the stripped title is empty, or the date and time text
    does not parse, or the parsed trigger time lies before the clock,
    [_add_reminder] shows an error and returns the application state
    as it was: no reminder is created or modified and no monitor is
    started. *)
Theorem C7_invalid_input_rejected (s : App) (f : Form) (uuid : string) :
  strip (title_entry f) = "" ∨
  strptime (date_picker f +:+ " " +:+ strip (time_entry f)) = None ∨
  (∃ t, strptime (date_picker f +:+ " " +:+ strip (time_entry f)) = Some t ∧
        ltb t (now s) = true) →
  ∃ msg, _add_reminder s f uuid = (s, [ShowError msg]).
Proof.
  intros H. unfold _add_reminder.
  destruct (decide (strip (title_entry f) = "")) as [|Hne]; [by eexists|].
  destruct H as [H | [H | (t & H & Hlt)]]; [done | |]; rewrite H.
  - by eexists.
  - rewrite Hlt. by eexists.
Qed.

Lemma C7_invalid_input_rejected_witness :
  let s := startup (mk_datetime 2024 1 1 10 0 0 0) None in
  let f := mk_Form "Tea" "" "2024-01-01" "09:59" in
  (strip (title_entry f) = "" ∨
   strptime (date_picker f +:+ " " +:+ strip (time_entry f)) = None ∨
   (∃ t, strptime (date_picker f +:+ " " +:+ strip (time_entry f)) = Some t ∧
         ltb t (now s) = true)) ∧
  ∃ msg, _add_reminder s f "u1" = (s, [ShowError msg]).
Proof.
  intros s f.
  assert (strip (title_entry f) = "" ∨
   strptime (date_picker f +:+ " " +:+ strip (time_entry f)) = None ∨
   (∃ t, strptime (date_picker f +:+ " " +:+ strip (time_entry f)) = Some t ∧
         ltb t (now s) = true)) as H.
  { right. right. exists (mk_datetime 2024 1 1 9 59 0 0).
    split; vm_compute; reflexivity. }
  split; [exact H|]. exact (C7_invalid_input_rejected s f "u1" H).
Defined.

(** ** [Reminder.from_dict] *)



(** ** Runs and traces *)

Lemma run_cons s a acts :
  run s (a :: acts)
  = ((run (step s a).1 acts).1, (step s a).2 ++ (run (step s a).1 acts).2).
Proof.
  simpl. destruct (step s a) as [s1 o1]. simpl.
  by destruct (run s1 acts) as [s2 o2].
Qed.

Lemma run_app s acts1 acts2 :
  run s (acts1 ++ acts2)
  = ((run (run s acts1).1 acts2).1,
     (run s acts1).2 ++ (run (run s acts1).1 acts2).2).
Proof.
  revert s. induction acts1 as [|a acts1 IH]; intros s.
  - simpl. by destruct (run s acts2).
  - rewrite <- app_comm_cons, !run_cons, IH. simpl. by rewrite app_assoc.
Qed.

Lemma enqueued_app os1 os2 : enqueued (os1 ++ os2) = enqueued os1 ++ enqueued os2.
Proof. apply omap_app. Qed.

Lemma dispatched_app os1 os2 :
  dispatched (os1 ++ os2) = dispatched os1 ++ dispatched os2.
Proof. apply omap_app. Qed.

Lemma enqueued_ids_app os1 os2 :
  enqueued_ids (os1 ++ os2) = enqueued_ids os1 ++ enqueued_ids os2.
Proof. apply omap_app. Qed.

(** ** The queue is first in, first out *)

Lemma fifo_step s a :
  notification_queue s ++ enqueued (step s a).2
  = dispatched (step s a).2 ++ notification_queue (step s a).1.
Proof.
  destruct a as [f uuid | rid | rid | | tid | | t]; simpl.
  - unfold _add_reminder. repeat case_match; simpl; by rewrite app_nil_r.
  - unfold _edit_reminder. case_match; simpl; by rewrite app_nil_r.
  - unfold _remove_reminder. case_match; simpl; by rewrite app_nil_r.
  - by rewrite app_nil_r.
  - unfold _monitor_reminder. repeat case_match; simpl; by rewrite ?app_nil_r.
  - unfold _handle_notifications. repeat case_match; simpl;
      by rewrite ?app_nil_r.
  - case_match; simpl; by rewrite app_nil_r.
Qed.

Lemma fifo_run s acts :
  notification_queue s ++ enqueued (run s acts).2
  = dispatched (run s acts).2 ++ notification_queue (run s acts).1.
Proof.
  revert s. induction acts as [|a acts IH]; intros s.
  - simpl. by rewrite app_nil_r.
  - rewrite run_cons. cbn [fst snd].
    rewrite enqueued_app, dispatched_app, app_assoc, fifo_step.
    by rewrite <- !app_assoc, IH.
Qed.

Lemma load_all_queue s ds : notification_queue (load_all s ds) = notification_queue s.
Proof.
  revert s. induction ds as [|d ds IH]; intros s; [done|]. simpl.
  destruct (load_one s d) as [s'|] eqn:E; [|done].
  rewrite IH. unfold load_one in E.
  destruct (strptime (d_trigger_time d)); [|done]. simpl in E.
  injection E as <-. by case_match.
Qed.

Lemma startup_queue t file : notification_queue (startup t file) = [].
Proof.
  unfold startup, _load_reminders. destruct file; [|done].
  by rewrite load_all_queue.
Qed.


(** ** Steps of a monitor *)

Lemma goto_pc tid th p s :
  threads s !! tid = Some th →
  threads (goto tid th p s) !! tid
  = Some (mk_Monitor (m_reminder th) p (m_current_time th)).
Proof.
  intros H. unfold goto. simpl.
  apply list_lookup_insert_eq. by eapply lookup_lt_Some.
Qed.

Lemma run_step s a acts s1 o1 :
  step s a = (s1, o1) →
  run s (a :: acts) = ((run s1 acts).1, o1 ++ (run s1 acts).2).
Proof. intros H. by rewrite run_cons, H. Qed.

Lemma run_monitor s tid acts s1 o1 :
  _monitor_reminder s tid = (s1, o1) →
  run s (AMonitor tid :: acts) = ((run s1 acts).1, o1 ++ (run s1 acts).2).
Proof. intros H. by apply run_step. Qed.

(** The step a monitor takes, by its position. *)
Lemma monitor_step s tid th r :
  threads s !! tid = Some th →
  heap s !! m_reminder th = Some r →
  _monitor_reminder s tid =
    match m_pc th with
    | MLoopTest =>
        if stop_event s then (goto tid th MExited s, [])
        else (goto tid th MLookup s, [])
    | MLookup =>
        match monitoring_threads s !! reminder_id r with
        | Some _ => (goto tid th MNow s, [])
        | None =>
            (goto tid th MCrashed s, [ThreadRaised tid (KeyError (reminder_id r))])
        end
    | MNow =>
        (with_threads
           (<[tid := mk_Monitor (m_reminder th) MCheckInactive (now s)]>
              (threads s)) s, [])
    | MCheckInactive =>
        if is_active r then (goto tid th MCheckDue s, [])
        else (goto tid th MExited s, [])
    | MCheckDue =>
        if geb (m_current_time th) (trigger_time r)
        then (goto tid th MCheckActive s, [])
        else (goto tid th MSleep s, [])
    | MCheckActive =>
        if is_active r then (goto tid th MPut s, [])
        else (goto tid th MSleep s, [])
    | MPut =>
        (goto tid th MDeactivate
           (with_queue (notification_queue s
                        ++ [mk_Notification (title r) (description r)]) s),
         [Enqueued tid (reminder_id r) (mk_Notification (title r) (description r))])
    | MDeactivate =>
        (goto tid th MExited
           (with_heap (alter deactivate (m_reminder th) (heap s)) s), [])
    | MSleep => (goto tid th MLoopTest s, [])
    | MExited | MCrashed => (s, [])
    end.
Proof. intros Hth Hr. unfold _monitor_reminder. by rewrite Hth, Hr. Qed.

Lemma remove_found s rid ref :
  reminders s !! rid = Some ref →
  _remove_reminder s rid =
    (let s' :=
       with_monitoring_threads (delete rid (monitoring_threads s))
         (with_heap (alter deactivate ref (heap s))
            (with_reminders (delete rid (reminders s)) s)) in
     (s', [Saved (_save_reminders s'); ShowInfo "Reminder removed."])).
Proof. intros H. unfold _remove_reminder. by rewrite H. Qed.


(** ** Invariants along a run *)

Lemma heap_ids_alter f i (h : list Reminder) :
  (∀ r, reminder_id (f r) = reminder_id r) →
  map reminder_id (alter f i h) = map reminder_id h.
Proof.
  intros Hf. apply list_eq. intros j. rewrite !list_lookup_fmap.
  destruct (decide (i = j)) as [->|Hne].
  - rewrite list_lookup_alter_eq. destruct (h !! j); simpl; [|done].
    by rewrite Hf.
  - by rewrite list_lookup_alter_ne.
Qed.

Lemma wf_new s r ref rid :
  wf s → reminder_id r ∉ heap_ids s → ref = length (heap s) →
  wf (start_monitor ref rid (store_new r s)).
Proof.
  intros [Hids Hrefs Hstore] Hfresh ->.
  constructor; unfold heap_ids, start_monitor, store_new in *; proj_simpl.
  - rewrite map_app. simpl. apply NoDup_app. split; [done|]. split.
    + intros x Hx. rewrite list_elem_of_singleton. by intros ->.
    + apply NoDup_singleton.
  - rewrite Forall_app, Forall_singleton, length_app. simpl. split; [|lia].
    eapply Forall_impl; [exact Hrefs|]. simpl. lia.
  - intros k ref'. rewrite map_app, lookup_insert. case_decide as Hk.
    + intros [= <-]. subst k.
      rewrite lookup_app_r by (by rewrite length_map).
      by rewrite length_map, Nat.sub_diag.
    + intros Hl. apply Hstore in Hl. by apply lookup_app_l_Some.
Qed.

Lemma wf_store_new s r :
  wf s → reminder_id r ∉ heap_ids s → wf (store_new r s).
Proof.
  intros [Hids Hrefs Hstore] Hfresh.
  constructor; unfold heap_ids, store_new in *; proj_simpl.
  - rewrite map_app. simpl. apply NoDup_app. split; [done|]. split.
    + intros x Hx. rewrite list_elem_of_singleton. by intros ->.
    + apply NoDup_singleton.
  - rewrite length_app. simpl. 
    eapply Forall_impl; [exact Hrefs|]. simpl. lia.
  - intros k ref'. rewrite map_app, lookup_insert. case_decide as Hk.
    + intros [= <-]. subst k.
      rewrite lookup_app_r by (by rewrite length_map).
      by rewrite length_map, Nat.sub_diag.
    + intros Hl. apply Hstore in Hl. by apply lookup_app_l_Some.
Qed.


Lemma wf_step s a : wf s → fresh_action s a = true → wf (step s a).1.
Proof.
  intros Hwf Hfresh. pose proof Hwf as [Hids Hrefs Hstore].
  step_cases a.
  all: try done.
  all: try (apply wf_new; [done| |done]; simpl;
            by apply bool_decide_eq_true in Hfresh).
  all: constructor; unfold heap_ids in *; proj_simpl;
       rewrite ?heap_ids_alter, ?length_alter by done.
  all: try done.
  all: try (apply Forall_insert; [done|]; simpl;
            by eapply (Forall_lookup_1 _ _ _ _ Hrefs)).
  intros k ref'. rewrite lookup_delete. case_decide; [done|]. apply Hstore.
Qed.

Lemma omap_insert_same {A B} (f : A → option B) (l : list A) (i : nat) x y :
  l !! i = Some x → f y = f x → omap f (<[i:=y]> l) = omap f l.
Proof.
  intros Hl Hf.
  rewrite insert_take_drop by (by eapply lookup_lt_Some).
  rewrite <- (take_drop_middle l i x Hl) at 3.
  rewrite !omap_app. simpl. by rewrite Hf.
Qed.

Lemma omap_insert_drop {A B} (f : A → option B) (l : list A) (i : nat) x y b :
  l !! i = Some x → f x = Some b → f y = None →
  ∃ l1 l2, omap f l = l1 ++ b :: l2 ∧ omap f (<[i:=y]> l) = l1 ++ l2.
Proof.
  intros Hl Hx Hy.
  exists (omap f (take i l)), (omap f (drop (S i) l)). split.
  - rewrite <- (take_drop_middle l i x Hl) at 1.
    rewrite omap_app. simpl. by rewrite Hx.
  - rewrite insert_take_drop by (by eapply lookup_lt_Some).
    rewrite omap_app. simpl. by rewrite Hy.
Qed.

Lemma omap_ext_Forall {A B} (f g : A → option B) (l : list A) :
  Forall (λ x, f x = g x) l → omap f l = omap g l.
Proof.
  induction 1 as [|x l Hx _ IH]; [done|]. csimpl. by rewrite Hx, IH.
Qed.

Lemma live_id_here s th r :
  heap s !! m_reminder th = Some r →
  live_id (heap_ids s) th
  = if may_put (m_pc th) then Some (reminder_id r) else None.
Proof.
  intros Hr. unfold live_id, heap_ids.
  by rewrite list_lookup_fmap, Hr.
Qed.

(** A step that keeps the ids and moves one monitor without enqueueing. *)
Lemma budget_move done s s' tid th th' :
  budget done s →
  threads s !! tid = Some th →
  heap_ids s' = heap_ids s →
  threads s' = <[tid := th']> (threads s) →
  m_reminder th' = m_reminder th →
  (may_put (m_pc th') = true → may_put (m_pc th) = true) →
  budget (done ++ []) s'.
Proof.
  intros [Hnd Hin] Hth Hids Hths Href Hpc. rewrite app_nil_r.
  split; [|by rewrite Hids].
  unfold live_ids. rewrite Hids, Hths.
  destruct (may_put (m_pc th')) eqn:Hp'.
  - rewrite (omap_insert_same _ _ _ th); [done..|].
    unfold live_id. by rewrite Hp', Hpc, Href.
  - destruct (live_id (heap_ids s) th) as [x|] eqn:Hx.
    + destruct (omap_insert_drop (live_id (heap_ids s)) _ _ _ th' x Hth Hx)
        as (l1 & l2 & E1 & E2).
      { unfold live_id. by rewrite Hp'. }
      unfold live_ids in Hnd. rewrite E1 in Hnd. rewrite E2.
      eapply sublist_NoDup; [exact Hnd|].
      apply sublist_app; [done|]. apply sublist_app; [done|].
      by apply sublist_cons.
    + rewrite (omap_insert_same _ _ _ th); [done..|].
      rewrite Hx. unfold live_id. by rewrite Hp'.
Qed.

(** The [put]: the id moves from the live monitors to the done list. *)
Lemma budget_put done s s' tid th th' r :
  budget done s →
  threads s !! tid = Some th →
  heap s !! m_reminder th = Some r →
  m_pc th = MPut →
  heap_ids s' = heap_ids s →
  threads s' = <[tid := th']> (threads s) →
  m_pc th' = MDeactivate →
  budget (done ++ [reminder_id r]) s'.
Proof.
  intros [Hnd Hin] Hth Hr Hpc Hids Hths Hpc'.
  assert (live_id (heap_ids s) th = Some (reminder_id r)) as Hx.
  { rewrite (live_id_here _ _ r) by done. by rewrite Hpc. }
  destruct (omap_insert_drop (live_id (heap_ids s)) _ _ _ th' _ Hth Hx)
    as (l1 & l2 & E1 & E2).
  { unfold live_id. by rewrite Hpc'. }
  split.
  - unfold live_ids in *. rewrite Hids, Hths, E2. rewrite E1 in Hnd.
    eapply NoDup_Permutation_proper; [|exact Hnd].
    rewrite <- !app_assoc. f_equiv. simpl.
    by rewrite Permutation_middle.
  - intros x. rewrite Hids, elem_of_app, list_elem_of_singleton.
    intros [Hx'| ->]; [by apply Hin|].
    unfold heap_ids. apply list_elem_of_fmap. exists r. split; [done|].
    by eapply list_elem_of_lookup_2.
Qed.

Lemma budget_same done s s' :
  budget done s → heap_ids s' = heap_ids s → threads s' = threads s →
  budget (done ++ []) s'.
Proof.
  intros [Hnd Hin] Hids Hths. rewrite app_nil_r.
  unfold budget, live_ids in *. by rewrite Hids, Hths.
Qed.

Lemma live_ids_new s ref rid r :
  wf s → ref = length (heap s) →
  live_ids (start_monitor ref rid (store_new r s))
  = live_ids s ++ [reminder_id r].
Proof.
  intros [_ Hrefs _] ->. unfold live_ids, heap_ids, start_monitor, store_new.
  proj_simpl. rewrite omap_app, map_app. simpl. f_equal.
  - apply omap_ext_Forall. eapply Forall_impl; [exact Hrefs|].
    intros th Hth. simpl in Hth. unfold live_id. case_match; [|done].
    apply lookup_app_l. by rewrite length_map.
  - unfold live_id. simpl.
    rewrite lookup_app_r by (by rewrite length_map).
    by rewrite length_map, Nat.sub_diag.
Qed.

Lemma budget_new done s ref rid r :
  wf s → budget done s → reminder_id r ∉ heap_ids s → ref = length (heap s) →
  budget (done ++ []) (start_monitor ref rid (store_new r s)).
Proof.
  intros Hwf [Hnd Hin] Hfresh Href. rewrite app_nil_r. split.
  - rewrite live_ids_new by done. rewrite app_assoc.
    apply NoDup_app. split; [done|]. split; [|apply NoDup_singleton].
    intros x Hx. rewrite list_elem_of_singleton. intros ->.
    apply Hfresh. apply elem_of_app in Hx as [Hx|Hx]; [by apply Hin|].
    unfold live_ids in Hx. apply list_elem_of_omap in Hx as (th & _ & Hx).
    unfold live_id in Hx. case_match; [|done].
    by eapply list_elem_of_lookup_2.
  - intros x Hx. unfold heap_ids, start_monitor, store_new. proj_simpl.
    rewrite map_app. apply elem_of_app. left. by apply Hin.
Qed.

Lemma budget_step done s a :
  wf s → budget done s → fresh_action s a = true →
  budget (done ++ enqueued_ids (step s a).2) (step s a).1.
Proof.
  intros Hwf Hb Hfresh.
  step_cases a; cbn [enqueued_ids omap list_omap].
  all: try (eapply budget_same; [exact Hb|unfold heap_ids; proj_simpl;
              by rewrite ?heap_ids_alter|done]).
  all: try (apply budget_new; [done|done| |done]; simpl;
              by apply bool_decide_eq_true in Hfresh).
  all: try (eapply budget_move; [exact Hb|eassumption|
              unfold heap_ids; proj_simpl; by rewrite ?heap_ids_alter|
              reflexivity|done|
              match goal with H : m_pc _ = _ |- _ => by rewrite H end]).
  eapply budget_put; [exact Hb|eassumption..|done|reflexivity|done].
Qed.

Lemma budget_run done s acts :
  wf s → budget done s → fresh_run s acts = true →
  budget (done ++ enqueued_ids (run s acts).2) (run s acts).1.
Proof.
  revert done s. induction acts as [|a acts IH]; intros done s Hwf Hb Hfresh.
  - simpl. by rewrite app_nil_r.
  - simpl in Hfresh. apply andb_prop in Hfresh as [Hfa Hfr].
    rewrite run_cons. cbn [fst snd].
    rewrite enqueued_ids_app, app_assoc.
    apply IH; [by apply wf_step|by apply budget_step|done].
Qed.

Lemma wf_run s acts : wf s → fresh_run s acts = true → wf (run s acts).1.
Proof.
  revert s. induction acts as [|a acts IH]; intros s Hwf Hfresh; [done|].
  simpl in Hfresh. apply andb_prop in Hfresh as [Hfa Hfr].
  rewrite run_cons. cbn [fst]. apply IH; [by apply wf_step|done].
Qed.

Lemma live_ids_store_new s r :
  wf s → live_ids (store_new r s) = live_ids s.
Proof.
  intros [_ Hrefs _]. unfold live_ids, heap_ids, store_new. proj_simpl.
  rewrite map_app. apply omap_ext_Forall.
  eapply Forall_impl; [exact Hrefs|].
  intros th Hth. simpl in Hth. unfold live_id. case_match; [|done].
  apply lookup_app_l. by rewrite length_map.
Qed.

Lemma budget_store_new done s r :
  wf s → budget done s → budget done (store_new r s).
Proof.
  intros Hwf [Hnd Hin]. split.
  - by rewrite live_ids_store_new.
  - intros x Hx. unfold heap_ids, store_new. proj_simpl.
    rewrite map_app. apply elem_of_app. left. by apply Hin.
Qed.

(** What the loop body does to the state. *)
Lemma load_one_spec s d s' :
  load_one s d = Some s' →
  ∃ trig active,
    strptime (d_trigger_time d) = Some trig ∧
    active = (if gtb (now s) trig then false else d_is_active d) ∧
    let r := mk_Reminder (d_id d) (d_title d) (d_description d) trig active in
    s' = (if active then start_monitor (length (heap s)) (d_id d) (store_new r s)
          else store_new r s).
Proof.
  unfold load_one. destruct (strptime (d_trigger_time d)) as [trig|]; [|done].
  simpl. intros [= <-]. by eexists _, _.
Qed.

Lemma heap_ids_store_new s r :
  heap_ids (store_new r s) = heap_ids s ++ [reminder_id r].
Proof. unfold heap_ids, store_new. proj_simpl. by rewrite map_app. Qed.

Lemma load_one_heap_ids s d s' :
  load_one s d = Some s' → heap_ids s' = heap_ids s ++ [d_id d].
Proof.
  intros (trig & active & _ & _ & ->)%load_one_spec.
  destruct active; apply heap_ids_store_new.
Qed.

Lemma load_one_inv s d s' :
  load_one s d = Some s' → d_id d ∉ heap_ids s →
  wf s → budget [] s → wf s' ∧ budget [] s'.
Proof.
  intros (trig & active & _ & _ & ->)%load_one_spec Hfresh Hwf Hb.
  destruct active.
  - split; [by apply wf_new|]. by apply (budget_new []).
  - split; [by apply wf_store_new|]. by apply budget_store_new.
Qed.

Lemma load_all_inv s ds :
  wf s → budget [] s → NoDup (map d_id ds) →
  (∀ d, d ∈ ds → d_id d ∉ heap_ids s) →
  wf (load_all s ds) ∧ budget [] (load_all s ds).
Proof.
  revert s. induction ds as [|d ds IH]; intros s Hwf Hb Hnd Hfresh; [done|].
  simpl. destruct (load_one s d) as [s'|] eqn:E; [|done].
  apply NoDup_cons in Hnd as [Hd Hnd].
  destruct (load_one_inv _ _ _ E) as [Hwf' Hb']; [|done..|].
  { apply Hfresh. apply list_elem_of_here. }
  apply IH; [done..|].
  intros d' Hd'. rewrite (load_one_heap_ids _ _ _ E).
  rewrite elem_of_app, list_elem_of_singleton. intros [Hin|Heq].
  - eapply Hfresh; [|exact Hin]. by apply list_elem_of_further.
  - apply Hd. rewrite <- Heq. by apply list_elem_of_fmap_2.
Qed.

Lemma init_app_inv t : wf (init_app t) ∧ budget [] (init_app t).
Proof.
  split; [constructor|split]; simpl.
  - apply NoDup_nil_2.
  - apply Forall_nil_2.
  - intros k ref. by rewrite lookup_empty.
  - apply NoDup_nil_2.
  - intros x Hx. by apply elem_of_nil in Hx.
Qed.

Lemma startup_inv t file :
  NoDup (map d_id (default [] file)) →
  wf (startup t file) ∧ budget [] (startup t file).
Proof.
  intros Hnd. destruct (init_app_inv t) as [Hwf Hb].
  unfold startup, _load_reminders. destruct file as [ds|]; [|done].
  apply load_all_inv; [done..|].
  intros d _ Hin. by apply elem_of_nil in Hin.
Qed.

Lemma NoDup_count (l : list string) (x : string) :
  NoDup l → (length (filter (λ y, y = x) l) ≤ 1)%nat.
Proof.
  induction 1 as [|y l Hy Hnd IH]; simpl; [lia|].
  rewrite filter_cons. case_decide as E; [|done].
  subst y. simpl.
  destruct (filter (λ y, y = x) l) as [|z l'] eqn:E; [simpl; lia|].
  exfalso. assert (z ∈ filter (λ y, y = x) l) as Hz
    by (rewrite E; apply list_elem_of_here).
  apply list_elem_of_filter in Hz as [-> Hz]. done.
Qed.

(** C1. Start the application on a file whose entries have distinct
    ids and let [uuid4] never repeat an id.  Then, whatever the user,
    the clock, the monitors and the handler do and in whatever order,
    the trace shows at most one notification enqueued for any id. *)
Theorem C1_at_most_one_event_per_id (t : datetime)
    (file : option (list reminder_data)) (acts : list Action) (rid : string) :
  NoDup (map d_id (default [] file)) →
  fresh_run (startup t file) acts = true →
  (length (filter (λ x, x = rid)
             (enqueued_ids (run (startup t file) acts).2)) ≤ 1)%nat.
Proof.
  intros Hnd Hfresh. destruct (startup_inv t file Hnd) as [Hwf Hb].
  destruct (budget_run [] _ acts Hwf Hb Hfresh) as [Hnd' _].
  simpl in Hnd'. apply NoDup_count.
  by apply NoDup_app in Hnd' as [? _].
Qed.

(** ** Loading *)

Lemma load_one_ext s d s' :
  load_one s d = Some s' →
  now s' = now s ∧
  (∃ r, heap s' = heap s ++ [r]) ∧
  (∀ k, k ≠ d_id d →
        reminders s' !! k = reminders s !! k ∧
        monitoring_threads s' !! k = monitoring_threads s !! k) ∧
  (∀ th, th ∈ threads s' →
         th ∈ threads s ∨ (length (heap s) ≤ m_reminder th)%nat).
Proof.
  intros (trig & active & _ & _ & ->)%load_one_spec.
  destruct active; unfold start_monitor, store_new; proj_simpl.
  - split; [done|]. split; [by eexists|]. split.
    + intros k Hk. by rewrite !lookup_insert_ne.
    + intros th [Hth| ->%list_elem_of_singleton]%elem_of_app; [by left|].
      right. simpl. lia.
  - split; [done|]. split; [by eexists|]. split.
    + intros k Hk. by rewrite !lookup_insert_ne.
    + intros th Hth. by left.
Qed.

Lemma load_all_ext s ds :
  now (load_all s ds) = now s ∧
  (∃ h, heap (load_all s ds) = heap s ++ h) ∧
  (∀ k, k ∉ map d_id ds →
        reminders (load_all s ds) !! k = reminders s !! k ∧
        monitoring_threads (load_all s ds) !! k = monitoring_threads s !! k) ∧
  (∀ th, th ∈ threads (load_all s ds) →
         th ∈ threads s ∨ (length (heap s) ≤ m_reminder th)%nat).
Proof.
  revert s. induction ds as [|d ds IH]; intros s; simpl.
  { split; [done|]. split; [exists []; by rewrite app_nil_r|]. split; auto. }
  destruct (load_one s d) as [s'|] eqn:E.
  2:{ split; [done|]. split; [exists []; by rewrite app_nil_r|]. split; auto. }
  destruct (load_one_ext _ _ _ E) as (Hn1 & [r Hh1] & Hk1 & Ht1).
  destruct (IH s') as (Hn2 & [h Hh2] & Hk2 & Ht2).
  split; [congruence|]. split.
  { exists (r :: h). rewrite Hh2, Hh1. by rewrite <- app_assoc. }
  split.
  - intros k Hk. apply not_elem_of_cons in Hk as [Hk1' Hk2'].
    destruct (Hk2 k Hk2') as [-> ->]. by apply Hk1.
  - intros th Hth. destruct (Ht2 th Hth) as [Hth'|Hge].
    + by apply Ht1.
    + right. rewrite Hh1, length_app in Hge. simpl in Hge. lia.
Qed.

Lemma load_one_is_Some s d :
  is_Some (strptime (d_trigger_time d)) → is_Some (load_one s d).
Proof. intros [trig H]. unfold load_one. rewrite H. by eexists. Qed.

Lemma load_all_app s ds1 ds2 :
  Forall (λ d, is_Some (strptime (d_trigger_time d))) ds1 →
  load_all s (ds1 ++ ds2) = load_all (load_all s ds1) ds2.
Proof.
  intros Hp. revert s. induction Hp as [|d ds1 Hd _ IH]; intros s; [done|].
  simpl. destruct (load_one_is_Some s d Hd) as [s' ->]. apply IH.
Qed.

(** A past-due entry of the file, once the entries before it are in. *)
Lemma load_past_due s d trig :
  strptime (d_trigger_time d) = Some trig → ltb trig (now s) = true →
  load_one s d
  = Some (store_new (mk_Reminder (d_id d) (d_title d) (d_description d)
                       trig false) s).
Proof.
  intros Htrig Hpast. unfold load_one. rewrite Htrig. simpl.
  unfold gtb. by rewrite Hpast.
Qed.

Lemma never_enqueued s rid acts :
  wf s → budget [] s → rid ∈ heap_ids s → rid ∉ live_ids s →
  fresh_run s acts = true → rid ∉ enqueued_ids (run s acts).2.
Proof.
  intros Hwf [Hnd _] Hin Hlive Hfresh.
  assert (budget [rid] s) as Hb.
  { split.
    - simpl. apply NoDup_cons. split; [done|]. exact Hnd.
    - by intros x ->%list_elem_of_singleton. }
  destruct (budget_run _ _ acts Hwf Hb Hfresh) as [Hnd' _].
  simpl in Hnd'. apply NoDup_cons in Hnd' as [Hx _].
  intros Hin'. apply Hx. apply elem_of_app. by left.
Qed.

(** C4, amended. Load a file whose entries have distinct ids and all
    parse.  An entry whose trigger instant is strictly before the
    clock at load time is stored inactive, no monitor is started for
    it and its id gets no entry in [monitoring_threads]; in every run
    that follows, no notification is enqueued for its id. *)
Theorem C4_past_due_loaded_inactive (t : datetime) (ds : list reminder_data)
    (d : reminder_data) (trig : datetime) (acts : list Action) :
  NoDup (map d_id ds) →
  Forall (λ d', is_Some (strptime (d_trigger_time d'))) ds →
  d ∈ ds →
  strptime (d_trigger_time d) = Some trig →
  ltb trig t = true →
  let s := startup t (Some ds) in
  (∃ ref r, reminders s !! d_id d = Some ref ∧ heap s !! ref = Some r ∧
            is_active r = false ∧
            ∀ th, th ∈ threads s → m_reminder th ≠ ref) ∧
  monitoring_threads s !! d_id d = None ∧
  (fresh_run s acts = true → d_id d ∉ enqueued_ids (run s acts).2).
Proof.
  intros Hnd Hparse Hin Htrig Hpast s.
  destruct (startup_inv t (Some ds) Hnd) as [Hwf Hb]. fold s in Hwf, Hb.
  apply list_elem_of_split in Hin as (l1 & l2 & ->).
  rewrite map_app in Hnd. simpl in Hnd.
  apply NoDup_app in Hnd as (Hnd1 & Hl1 & [Hl2 _]%NoDup_cons).
  apply Forall_app in Hparse as [Hp1 _].
  assert (d_id d ∉ map d_id l1) as Hl1'.
  { intros Hx. apply (Hl1 _ Hx). apply list_elem_of_here. }
  set (s1 := load_all (init_app t) l1).
  set (r := mk_Reminder (d_id d) (d_title d) (d_description d) trig false).
  destruct (load_all_ext (init_app t) l1) as (Hn1 & _ & Hk1 & _).
  fold s1 in Hn1, Hk1. destruct (Hk1 _ Hl1') as [_ Hm1].
  assert (wf s1) as [_ Hrefs1 _].
  { apply load_all_inv; [apply init_app_inv..|done|].
    intros d' _ Hx. by apply elem_of_nil in Hx. }
  assert (s = load_all (store_new r s1) l2) as Es.
  { subst s. unfold startup, _load_reminders.
    rewrite load_all_app by done. fold s1. simpl.
    rewrite (load_past_due _ _ trig); [done..|]. by rewrite Hn1. }
  destruct (load_all_ext (store_new r s1) l2) as (_ & [h Hh2] & Hk2 & Ht2).
  rewrite <- Es in Hh2, Hk2, Ht2. destruct (Hk2 _ Hl2) as [Hr2 Hm2].
  unfold store_new in Hh2, Hr2, Hm2, Ht2. proj_simpl.
  assert (reminders s !! d_id d = Some (length (heap s1))) as Hstore.
  { rewrite Hr2. apply lookup_insert_eq. }
  assert (heap s !! length (heap s1) = Some r) as Hheap.
  { rewrite Hh2, <- app_assoc. by apply list_lookup_middle. }
  assert (∀ th, th ∈ threads s → m_reminder th ≠ length (heap s1)) as Hnone.
  { intros th Hth. destruct (Ht2 th Hth) as [Hth'|Hge].
    - rewrite Forall_forall in Hrefs1. apply Hrefs1 in Hth'. lia.
    - rewrite length_app in Hge. simpl in Hge. lia. }
  split; [by exists (length (heap s1)), r|].
  split; [by rewrite Hm2, Hm1|].
  intros Hfresh. apply never_enqueued; [done..| | |done].
  - apply list_elem_of_fmap. exists r. split; [done|].
    by eapply list_elem_of_lookup_2.
  - intros (th & Hth & Hlive)%list_elem_of_omap.
    unfold live_id in Hlive. case_match; [|done].
    destruct Hwf as [Hids _ Hst]. apply Hst in Hstore.
    apply (Hnone th Hth). by eapply NoDup_lookup.
Qed.

(** C4, as stated, fails when the trigger instant equals the clock:
    the load loop tests [datetime.now() > reminder.trigger_time], so
    the reminder stays active, gets a monitor, and the monitor
    enqueues its notification. *)
Lemma C4_due_now_counterexample :
  let t := mk_datetime 2024 1 1 10 0 0 0 in
  let d := mk_reminder_data "r1" "Tea" "" "2024-01-01 10:00" true in
  let s := startup t (Some [d]) in
  (strptime (d_trigger_time d) = Some t ∧ leb t (now s) = true) ∧
  is_active <$> heap s !! 0%nat = Some true ∧
  monitoring_threads s !! "r1" = Some 0%nat ∧
  m_reminder <$> threads s !! 0%nat = Some 0%nat ∧
  enqueued_ids (run s (replicate 7 (AMonitor 0))).2 = ["r1"].
Proof. vm_compute. repeat split; reflexivity. Qed.

(** ** The order on datetimes *)

Lemma lex_compare_lt_le_trans l1 l2 l3 :
  lex_compare l1 l2 = Lt → lex_compare l3 l2 ≠ Lt → lex_compare l1 l3 = Lt.
Proof.
  revert l2 l3. induction l1 as [|x l1 IH]; intros [|y l2] [|z l3]; simpl;
    try done.
  destruct (Z.compare_spec x y), (Z.compare_spec z y), (Z.compare_spec x z);
    try done; try lia.
  apply IH.
Qed.

Lemma ltb_leb_trans a b c :
  ltb a b = true → leb b c = true → ltb a c = true.
Proof.
  unfold leb, ltb, compare. intros Hab Hbc.
  destruct (lex_compare (fields a) (fields b)) eqn:E1; try done.
  rewrite (lex_compare_lt_le_trans _ _ (fields c) E1); [done|].
  by destruct (lex_compare (fields c) (fields b)).
Qed.

Lemma leb_trans a b c : leb a b = true → leb b c = true → leb a c = true.
Proof.
  intros Hab Hbc. unfold leb. destruct (ltb c a) eqn:E; [|done].
  pose proof (ltb_leb_trans _ _ _ E Hab) as H.
  unfold leb in Hbc. by rewrite H in Hbc.
Qed.

Lemma leb_refl a : leb a a = true.
Proof.
  unfold leb, ltb, compare.
  assert (∀ l, lex_compare l l = Eq) as ->; [|done].
  induction l as [|x l IH]; simpl; [done|]. by rewrite Z.compare_refl.
Qed.

(** A monitor that saw [cur >= trig] with [cur <= now] cannot exist
    while [now < trig]. *)
Lemma not_yet_due cur trig t :
  geb cur trig = true → leb cur t = true → ltb t trig = true → False.
Proof.
  intros Hge Hle Hlt. unfold geb in Hge.
  assert (leb trig cur = true) as Hle' by done.
  pose proof (ltb_leb_trans _ _ _ Hlt Hle') as H.
  unfold leb in Hle. by rewrite H in Hle.
Qed.

(** ** Facts about loading and edit mode *)

Lemma editing_Some e k : editing e = Some k → e = AttrId k.
Proof.
  destruct e as [| |k']; simpl; try done. by case_decide; intros [= ->].
Qed.

Lemma load_one_threads s d s' th :
  load_one s d = Some s' → th ∈ threads s' → th ∈ threads s ∨ m_pc th = MLoopTest.
Proof.
  intros (trig & active & _ & _ & ->)%load_one_spec.
  destruct active; unfold start_monitor, store_new; proj_simpl; [|by left].
  intros [Hth| ->%list_elem_of_singleton]%elem_of_app; [by left|by right].
Qed.

Lemma load_all_threads s ds th :
  th ∈ threads (load_all s ds) → th ∈ threads s ∨ m_pc th = MLoopTest.
Proof.
  revert s. induction ds as [|d ds IH]; intros s; simpl; [by left|].
  destruct (load_one s d) as [s'|] eqn:E; [|by left].
  intros [Hth|Hpc]%IH; [|by right]. by eapply load_one_threads.
Qed.

Lemma load_all_editing s ds :
  editing_reminder_id (load_all s ds) = editing_reminder_id s.
Proof.
  revert s. induction ds as [|d ds IH]; intros s; simpl; [done|].
  destruct (load_one s d) as [s'|] eqn:E; [|done]. rewrite IH.
  apply load_one_spec in E as (trig & active & _ & _ & ->).
  by destruct active.
Qed.

(** ** Removal

    What holds of one reminder id before and after its removal. *)

Section Removal.

Context (rid : string).

(** *** After the removal *)

Lemma removed_same s s' :
  removed rid s → reminders s' !! rid = None → heap s' = heap s →
  threads s' = threads s → removed rid s'.
Proof.
  intros (Hr & Hin & Hth) Hr' Hh Ht. unfold removed, heap_ids.
  rewrite Hh, Ht. done.
Qed.

Lemma removed_move s s' tid0 th0 th0' r0 :
  removed rid s →
  threads s !! tid0 = Some th0 →
  heap s !! m_reminder th0 = Some r0 →
  reminders s' = reminders s →
  heap s' = heap s →
  threads s' = <[tid0 := th0']> (threads s) →
  m_reminder th0' = m_reminder th0 →
  (m_pc th0' = MPut → is_active r0 = true) →
  removed rid s'.
Proof.
  intros (Hr & Hin & Hth) Hth0 Hr0 Hr' Hh Ht Href Hpc.
  unfold removed, heap_ids. rewrite Hr', Hh, Ht.
  split; [done|]. split; [done|].
  intros tid th r Hlk Hobj Hid.
  destruct (decide (tid = tid0)) as [->|Hne].
  - rewrite list_lookup_insert_eq in Hlk by (by eapply lookup_lt_Some).
    injection Hlk as <-. rewrite Href in Hobj.
    assert (r = r0) as -> by congruence.
    destruct (Hth _ _ _ Hth0 Hr0 Hid) as [_ Hina]. split; [|done].
    intros Hput. apply Hpc in Hput. congruence.
  - rewrite list_lookup_insert_ne in Hlk by done. by eapply Hth.
Qed.

Lemma removed_alter s s' f n :
  removed rid s →
  reminders s' !! rid = None →
  heap s' = alter f n (heap s) →
  threads s' = threads s →
  (∀ r, reminder_id (f r) = reminder_id r) →
  (∀ r, heap s !! n = Some r → reminder_id r = rid → is_active (f r) = false) →
  removed rid s'.
Proof.
  intros (Hr & Hin & Hth) Hr' Hh Ht Hf Hfa.
  unfold removed, heap_ids. rewrite Hh, Ht, heap_ids_alter by done.
  split; [done|]. split; [done|].
  intros tid th r Hlk Hobj Hid.
  destruct (decide (m_reminder th = n)) as [Hn|Hn].
  - rewrite Hn, list_lookup_alter_eq in Hobj.
    destruct (heap s !! n) as [r1|] eqn:Hr1; [|done].
    simpl in Hobj. injection Hobj as <-. rewrite Hf in Hid.
    rewrite <- Hn in Hr1. destruct (Hth _ _ _ Hlk Hr1 Hid) as [Hpc _].
    split; [done|]. rewrite Hn in Hr1. by apply Hfa.
  - rewrite list_lookup_alter_ne in Hobj by done. by eapply Hth.
Qed.

Lemma removed_new s ref k r :
  wf s → removed rid s → reminder_id r ∉ heap_ids s → ref = length (heap s) →
  removed rid (start_monitor ref k (store_new r s)).
Proof.
  intros [_ Hrefs _] (Hr & Hin & Hth) Hfresh ->.
  assert (reminder_id r ≠ rid) as Hne.
  { intros E. apply Hfresh. by rewrite E. }
  unfold removed, heap_ids, start_monitor, store_new. proj_simpl.
  split; [by rewrite lookup_insert_ne|]. split.
  { rewrite map_app. apply elem_of_app. by left. }
  intros tid th r1 Hlk Hobj Hid.
  apply lookup_app_Some in Hlk as [Hlk|[_ Hlk]].
  - assert (m_reminder th < length (heap s))%nat as Hlt.
    { rewrite Forall_forall in Hrefs. apply Hrefs.
      by eapply list_elem_of_lookup_2. }
    rewrite lookup_app_l in Hobj by done. by eapply Hth.
  - apply list_lookup_singleton_Some in Hlk as [_ <-]. simpl in *.
    rewrite list_lookup_middle in Hobj by done. congruence.
Qed.

Lemma removed_step s a :
  wf s → removed rid s → fresh_action s a = true →
  removed rid (step s a).1 ∧ rid ∉ enqueued_ids (step s a).2.
Proof.
  intros Hwf Hrm Hfresh. pose proof Hrm as (Hr & Hin & Hth).
  step_cases a; cbn [enqueued_ids omap list_omap].
  all: try (split; [done|by apply not_elem_of_nil]).
  all: try (split; [|by apply not_elem_of_nil]).
  all: try (eapply removed_same; [exact Hrm|done..]).
  all: try (eapply removed_move; [exact Hrm|eassumption|eassumption|
              reflexivity..|done|simpl; congruence]).
  - (* the edit goes to another object *)
    eapply removed_alter; [exact Hrm|done|reflexivity|done|done|].
    intros r0 Hr0 Hid. exfalso.
    destruct Hwf as [_ _ Hst]. pose proof (Hst _ _ H3) as Hx.
    unfold heap_ids in Hx. rewrite list_lookup_fmap, Hr0 in Hx.
    simpl in Hx. congruence.
  - apply removed_new; [done..| |done]. simpl.
    by apply bool_decide_eq_true in Hfresh.
  - eapply removed_alter; [exact Hrm| |reflexivity|done|done|done].
    proj_simpl. rewrite lookup_delete. by case_decide.
  - split.
    + eapply removed_move; [exact Hrm|eassumption|eassumption|
                            reflexivity..|done|done].
    + intros ->%list_elem_of_singleton.
      by destruct (Hth _ _ _ H H0 eq_refl).
  - eapply (removed_move
              (with_heap (alter deactivate (m_reminder m) (heap s)) s)).
    + eapply removed_alter; [exact Hrm|done|reflexivity|done|done|done].
    + done.
    + proj_simpl. by rewrite list_lookup_alter_eq, H0.
    + done.
    + done.
    + done.
    + done.
    + done.
Qed.

Lemma removed_run s acts :
  wf s → removed rid s → fresh_run s acts = true →
  removed rid (run s acts).1 ∧ rid ∉ enqueued_ids (run s acts).2.
Proof.
  revert s. induction acts as [|a acts IH]; intros s Hwf Hrm Hfresh.
  - split; [done|apply not_elem_of_nil].
  - simpl in Hfresh. apply andb_prop in Hfresh as [Hfa Hfr].
    rewrite run_cons. cbn [fst snd].
    destruct (removed_step s a Hwf Hrm Hfa) as [Hrm' Hno].
    destruct (IH _ (wf_step _ _ Hwf Hfa) Hrm' Hfr) as [Hrm'' Hno'].
    split; [done|]. rewrite enqueued_ids_app, elem_of_app. tauto.
Qed.

(** *** Before the removal, without edits of the reminder *)

Lemma deadline_frame s s' :
  deadline_sound rid s →
  editing_reminder_id s' ≠ AttrId rid →
  heap s' = heap s → threads s' = threads s →
  leb (now s) (now s') = true →
  deadline_sound rid s'.
Proof.
  intros [He Hth] He' Hh Ht Hn. split; [done|].
  rewrite Hh, Ht. intros tid th r Hlk Hobj Hid.
  destruct (Hth _ _ _ Hlk Hobj Hid) as [Hc Hd]. split; [|done].
  intros Hp. eapply leb_trans; [by apply Hc|done].
Qed.

Lemma deadline_move s s' tid0 th0 th0' r0 :
  deadline_sound rid s →
  threads s !! tid0 = Some th0 →
  heap s !! m_reminder th0 = Some r0 →
  editing_reminder_id s' = editing_reminder_id s →
  now s' = now s →
  heap s' = heap s →
  threads s' = <[tid0 := th0']> (threads s) →
  m_reminder th0' = m_reminder th0 →
  (reminder_id r0 = rid →
   (has_read_clock (m_pc th0') = true →
    leb (m_current_time th0') (now s) = true) ∧
   (has_seen_due (m_pc th0') = true →
    geb (m_current_time th0') (trigger_time r0) = true)) →
  deadline_sound rid s'.
Proof.
  intros [He Hth] Hth0 Hr0 He' Hn Hh Ht Href Hnew.
  split; [by rewrite He'|]. rewrite Hn, Hh, Ht.
  intros tid th r Hlk Hobj Hid.
  destruct (decide (tid = tid0)) as [->|Hne].
  - rewrite list_lookup_insert_eq in Hlk by (by eapply lookup_lt_Some).
    injection Hlk as <-. rewrite Href in Hobj.
    assert (r = r0) as -> by congruence. by apply Hnew.
  - rewrite list_lookup_insert_ne in Hlk by done. by eapply Hth.
Qed.

Lemma deadline_alter s s' f n :
  deadline_sound rid s →
  editing_reminder_id s' ≠ AttrId rid →
  now s' = now s →
  heap s' = alter f n (heap s) →
  threads s' = threads s →
  (∀ r, reminder_id (f r) = reminder_id r) →
  (∀ r, heap s !! n = Some r → reminder_id r = rid →
        trigger_time (f r) = trigger_time r) →
  deadline_sound rid s'.
Proof.
  intros [He Hth] He' Hn Hh Ht Hf Hft. split; [done|].
  rewrite Hn, Hh, Ht. intros tid th r Hlk Hobj Hid.
  destruct (decide (m_reminder th = n)) as [Hn'|Hn'].
  - rewrite Hn', list_lookup_alter_eq in Hobj.
    destruct (heap s !! n) as [r1|] eqn:Hr1; [|done].
    simpl in Hobj. injection Hobj as <-. rewrite Hf in Hid.
    rewrite Hft by done. rewrite <- Hn' in Hr1. by eapply Hth.
  - rewrite list_lookup_alter_ne in Hobj by done. by eapply Hth.
Qed.

Lemma deadline_new s ref k r :
  wf s → deadline_sound rid s → ref = length (heap s) →
  deadline_sound rid (start_monitor ref k (store_new r s)).
Proof.
  intros [_ Hrefs _] [He Hth] ->.
  unfold deadline_sound, start_monitor, store_new. proj_simpl.
  split; [done|]. intros tid th r1 Hlk Hobj Hid.
  apply lookup_app_Some in Hlk as [Hlk|[_ Hlk]].
  - assert (m_reminder th < length (heap s))%nat as Hlt.
    { rewrite Forall_forall in Hrefs. apply Hrefs.
      by eapply list_elem_of_lookup_2. }
    rewrite lookup_app_l in Hobj by done. by eapply Hth.
  - apply list_lookup_singleton_Some in Hlk as [_ <-]. by simpl.
Qed.

Lemma deadline_step s a :
  wf s → deadline_sound rid s → not_edit rid a = true →
  deadline_sound rid (step s a).1.
Proof.
  intros Hwf Hds Hne. pose proof Hds as [He Hth].
  step_cases a.
  all: try done.
  all: try solve [eapply deadline_frame; [exact Hds|done..|apply leb_refl]].
  all: try solve [eapply deadline_move; [exact Hds|eassumption|eassumption|
              reflexivity..|done|];
            let Hid := fresh in intros Hid;
            match goal with
            | Hlk : threads _ !! _ = Some ?m, Hobj : heap _ !! _ = Some _,
              Hpc : m_pc ?m = _ |- _ =>
                destruct (Hth _ _ _ Hlk Hobj Hid) as [? ?];
                rewrite Hpc in *; simpl in *
            end; split; auto using leb_refl; done].
  - (* the edit goes to another reminder *)
    apply editing_Some in H2.
    eapply deadline_alter; [exact Hds|done|reflexivity..|done|].
    intros r0 Hr0 Hid. exfalso.
    destruct Hwf as [_ _ Hst]. pose proof (Hst _ _ H3) as Hx.
    unfold heap_ids in Hx. rewrite list_lookup_fmap, Hr0 in Hx.
    simpl in Hx. congruence.
  - by apply deadline_new.
  - eapply deadline_frame; [exact Hds| |done..|apply leb_refl].
    simpl in *. apply bool_decide_eq_true in Hne. congruence.
  - eapply deadline_alter; [exact Hds|done|reflexivity..|done|done].
  - eapply (deadline_move
              (with_heap (alter deactivate (m_reminder m) (heap s)) s)).
    + eapply deadline_alter; [exact Hds|done|reflexivity..|done|done].
    + done.
    + proj_simpl. by rewrite list_lookup_alter_eq, H0.
    + done.
    + done.
    + done.
    + done.
    + done.
    + done.
  - by eapply deadline_frame.
Qed.

Lemma deadline_run s acts :
  wf s → deadline_sound rid s → forallb (not_edit rid) acts = true →
  fresh_run s acts = true →
  deadline_sound rid (run s acts).1.
Proof.
  revert s. induction acts as [|a acts IH]; intros s Hwf Hds Hne Hfresh;
    [done|].
  simpl in Hne, Hfresh.
  apply andb_prop in Hne as [Hna Hnr]. apply andb_prop in Hfresh as [Hfa Hfr].
  rewrite run_cons. cbn [fst].
  apply IH; [by apply wf_step|by apply deadline_step|done..].
Qed.

Lemma startup_deadline_sound t file : deadline_sound rid (startup t file).
Proof.
  split.
  - unfold startup, _load_reminders. destruct file; [|done].
    by rewrite load_all_editing.
  - intros tid th r Hlk _ _.
    assert (m_pc th = MLoopTest) as ->; [|done].
    apply list_elem_of_lookup_2 in Hlk.
    unfold startup, _load_reminders in Hlk. destruct file.
    + apply load_all_threads in Hlk as [Hin|Hpc]; [|done].
      by apply elem_of_nil in Hin.
    + by apply elem_of_nil in Hlk.
Qed.

(** A removal before the trigger instant finds the monitor short of
    its [put]. *)
Lemma remove_before_due s ref r :
  wf s → deadline_sound rid s →
  reminders s !! rid = Some ref → heap s !! ref = Some r →
  ltb (now s) (trigger_time r) = true →
  removed rid (_remove_reminder s rid).1.
Proof.
  intros Hwf [_ Hds] Hrid Href Hlt. pose proof Hwf as [Hids _ Hst].
  rewrite (remove_found _ _ _ Hrid). cbn [fst].
  pose proof (Hst _ _ Hrid) as Hidx.
  assert (reminder_id r = rid) as Hid.
  { unfold heap_ids in Hidx. rewrite list_lookup_fmap, Href in Hidx.
    simpl in Hidx. congruence. }
  unfold removed, heap_ids. proj_simpl. rewrite heap_ids_alter by done.
  split; [apply lookup_delete_eq|]. split.
  { by eapply list_elem_of_lookup_2. }
  intros tid th r1 Hlk Hobj Hid1.
  assert (m_reminder th = ref) as Hm.
  { eapply NoDup_lookup; [exact Hids| |exact Hidx].
    unfold heap_ids. rewrite list_lookup_fmap.
    destruct (decide (m_reminder th = ref)) as [->|Hn].
    - rewrite Href. simpl. by rewrite Hid.
    - rewrite list_lookup_alter_ne in Hobj by done.
      rewrite Hobj. simpl. by rewrite Hid1. }
  rewrite Hm, list_lookup_alter_eq, Href in Hobj. simpl in Hobj.
  injection Hobj as <-. split; [|done].
  intros Hput. rewrite <- Hm in Href.
  destruct (Hds _ _ _ Hlk Href Hid) as [Hc Hd].
  rewrite Hput in Hc, Hd.
  by eapply not_yet_due; [apply Hd|apply Hc|exact Hlt].
Qed.

End Removal.

Lemma fresh_run_app s acts1 acts2 :
  fresh_run s (acts1 ++ acts2)
  = fresh_run s acts1 && fresh_run (run s acts1).1 acts2.
Proof.
  revert s. induction acts1 as [|a acts1 IH]; intros s; [done|].
  rewrite <- app_comm_cons. cbn [fresh_run].
  rewrite IH, run_cons. cbn [fst]. by rewrite andb_assoc.
Qed.



(** ** Editing a reminder that has fired *)

(** C5, on the code. After [edit_after_firing] the reminder is stored
    active with the new trigger time, but its only monitor has exited
    and the edit branch of [_add_reminder] starts none: whatever
    happens next, no notification is enqueued for it. *)
Theorem C5_edited_after_firing_never_fires (acts : list Action) :
  let s := (run (startup (mk_datetime 2024 1 1 10 0 0 0) None)
              edit_after_firing).1 in
  fresh_run s acts = true →
  (reminders s !! "u1" = Some 0%nat ∧
   heap s !! 0%nat
     = Some (mk_Reminder "u1" "Tea" "" (mk_datetime 2024 1 1 11 0 0 0) true) ∧
   threads s
     = [mk_Monitor 0 MExited (mk_datetime 2024 1 1 10 5 0 0)]) ∧
  "u1" ∉ enqueued_ids (run s acts).2.
Proof.
  intros s Hfresh. split; [by vm_compute|].
  set (s0 := startup (mk_datetime 2024 1 1 10 0 0 0) None).
  destruct (startup_inv (mk_datetime 2024 1 1 10 0 0 0) None) as [Hwf0 Hb0];
    [apply NoDup_nil_2|]. fold s0 in Hwf0, Hb0.
  assert (fresh_run s0 edit_after_firing = true) as Hf0 by (by vm_compute).
  pose proof (wf_run _ _ Hwf0 Hf0) as Hwf.
  pose proof (budget_run _ _ _ Hwf0 Hb0 Hf0) as Hb.
  change (run s0 edit_after_firing).1 with s in Hwf, Hb.
  assert (enqueued_ids (run s0 edit_after_firing).2 = ["u1"]) as E
    by (by vm_compute).
  rewrite E in Hb. simpl in Hb.
  destruct (budget_run _ _ acts Hwf Hb Hfresh) as [Hnd _].
  simpl in Hnd. apply NoDup_cons in Hnd as [Hx _].
  intros Hin. apply Hx. apply elem_of_app. by left.
Qed.

Lemma C5_edited_after_firing_never_fires_witness :
  let s := (run (startup (mk_datetime 2024 1 1 10 0 0 0) None)
              edit_after_firing).1 in
  let acts := [ATick (mk_datetime 2024 1 1 11 0 0 0);
               AMonitor 0; AMonitor 0; AHandler; AHandler] in
  fresh_run s acts = true ∧ "u1" ∉ enqueued_ids (run s acts).2.
Proof.
  intros s acts. split; [reflexivity|].
  exact (proj2 (C5_edited_after_firing_never_fires acts eq_refl)).
Defined.

(** The edit does not reach a monitor that has already passed its
    deadline check either: the monitor enqueues (with the edited
    text), then clears [is_active], and the reminder edited to 11:00
    is left inactive with no monitor running. *)
Example edit_during_firing :
  let r := run (startup ten_o_clock None)
             ([AAdd tea_at_10_05 "u1"; ATick five_past_ten]
              ++ replicate 6 (AMonitor 0)
              ++ [AEdit "u1"; AAdd (mk_Form "Coffee" "" "2024-01-01" "11:00") "u2"]
              ++ replicate 2 (AMonitor 0)) in
  enqueued r.2 = [mk_Notification "Coffee" ""] ∧
  heap r.1
    = [mk_Reminder "u1" "Coffee" "" (mk_datetime 2024 1 1 11 0 0 0) false] ∧
  m_pc <$> threads r.1 = [MExited].
Proof. vm_compute. repeat split; reflexivity. Qed.

(** ** The firing sequence of a monitor *)

(** C2, as stated, fails: the monitor enqueues while the reminder is
    still active and clears [is_active] only in its next step; and
    when the reminder is removed between the monitor's check and its
    [put], the notification is enqueued although the store no longer
    has the id. *)
Lemma C2_enqueue_before_deactivate_counterexample :
  let t0 := mk_datetime 2024 1 1 10 0 0 0 in
  let t1 := mk_datetime 2024 1 1 10 5 0 0 in
  let n := mk_Notification "Tea" "" in
  let s := (run (startup t0 None)
              ([AAdd (mk_Form "Tea" "" "2024-01-01" "10:05") "u1"; ATick t1]
               ++ replicate 6 (AMonitor 0))).1 in
  let s1 := (_monitor_reminder s 0).1 in
  let s2 := (_monitor_reminder s1 0).1 in
  let s' := (_remove_reminder s "u1").1 in
  ((_monitor_reminder s 0).2 = [Enqueued 0 "u1" n] ∧
   is_active <$> heap s1 !! 0%nat = Some true ∧
   (_monitor_reminder s1 0).2 = [] ∧
   is_active <$> heap s2 !! 0%nat = Some false) ∧
  (reminders s' !! "u1" = None ∧
   is_active <$> heap s' !! 0%nat = Some false ∧
   (_monitor_reminder s' 0).2 = [Enqueued 0 "u1" n]).
Proof. vm_compute. repeat split; reflexivity. Qed.

(** C2, amended. One step of a monitor: it reaches its [put] only from
    the second test of [is_active], having read it as true; the [put]
    enqueues the notification built from the reminder, leaves every
    reminder as it is and goes on to the deactivation, so the enqueue
    precedes the deactivation; the deactivation then clears
    [is_active] and the monitor exits.  A monitor that reads
    [is_active] as false enqueues nothing: it exits at the first test
    and sleeps at the second. *)
Theorem C2_check_put_deactivate (s : App) (tid : nat) (th : Monitor)
    (r : Reminder) :
  threads s !! tid = Some th →
  heap s !! m_reminder th = Some r →
  let s' := (_monitor_reminder s tid).1 in
  let os := (_monitor_reminder s tid).2 in
  let n := mk_Notification (title r) (description r) in
  (m_pc <$> threads s' !! tid = Some MPut
   ↔ m_pc th = MCheckActive ∧ is_active r = true) ∧
  (enqueued_ids os ≠ [] ↔ m_pc th = MPut) ∧
  (m_pc th = MPut →
   os = [Enqueued tid (reminder_id r) n] ∧
   notification_queue s' = notification_queue s ++ [n] ∧
   heap s' = heap s ∧
   m_pc <$> threads s' !! tid = Some MDeactivate) ∧
  (m_pc th = MDeactivate →
   os = [] ∧
   heap s' = alter deactivate (m_reminder th) (heap s) ∧
   m_pc <$> threads s' !! tid = Some MExited) ∧
  (is_active r = false →
   (m_pc th = MCheckInactive → m_pc <$> threads s' !! tid = Some MExited) ∧
   (m_pc th = MCheckActive → m_pc <$> threads s' !! tid = Some MSleep)).
Proof.
  intros Hth Hr s' os n. subst s' os.
  assert (tid < length (threads s))%nat as Hlt by (by eapply lookup_lt_Some).
  rewrite (monitor_step _ _ _ _ Hth Hr).
  destruct (m_pc th) eqn:Hpc; repeat case_match; proj_simpl;
    rewrite ?list_lookup_insert_eq by done;
    rewrite ?Hth; simpl; rewrite ?Hpc;
    repeat split; try done; try (intros [? ?]; done).
Qed.

(** ** The theorems at concrete runs *)

Lemma C1_at_most_one_event_per_id_witness :
  let file := Some [mk_reminder_data "r1" "Pills" "" "2024-01-01 10:00" true] in
  let acts := [AAdd tea_at_10_05 "u1"; ATick five_past_ten]
              ++ replicate 8 (AMonitor 0) ++ replicate 8 (AMonitor 1)
              ++ [AEdit "u1"; AAdd tea_at_10_05 "u2"; ARemove "r1"]
              ++ replicate 8 (AMonitor 0) ++ replicate 8 (AMonitor 1) in
  NoDup (map d_id (default [] file)) ∧
  fresh_run (startup ten_o_clock file) acts = true ∧
  enqueued_ids (run (startup ten_o_clock file) acts).2 = ["r1"; "u1"] ∧
  (length (filter (λ x, x = "u1")
             (enqueued_ids (run (startup ten_o_clock file) acts).2)) ≤ 1)%nat.
Proof.
  intros file acts.
  assert (NoDup (map d_id (default [] file))) as Hnd.
  { apply (bool_decide_unpack _). vm_compute. exact I. }
  assert (fresh_run (startup ten_o_clock file) acts = true) as Hf
    by (vm_compute; reflexivity).
  split; [exact Hnd|]. split; [exact Hf|].
  split; [vm_compute; reflexivity|].
  exact (C1_at_most_one_event_per_id ten_o_clock file acts "u1" Hnd Hf).
Defined.

Lemma C2_check_put_deactivate_witness :
  let s := (run (startup ten_o_clock None)
              ([AAdd tea_at_10_05 "u1"; ATick five_past_ten]
               ++ replicate 6 (AMonitor 0))).1 in
  let th := mk_Monitor 0 MPut five_past_ten in
  let r := mk_Reminder "u1" "Tea" "" five_past_ten true in
  threads s !! 0%nat = Some th ∧
  heap s !! m_reminder th = Some r ∧
  (_monitor_reminder s 0).2 = [Enqueued 0 "u1" (mk_Notification "Tea" "")] ∧
  heap (_monitor_reminder s 0).1 = heap s.
Proof.
  intros s th r.
  assert (threads s !! 0%nat = Some th) as Hth by (vm_compute; reflexivity).
  assert (heap s !! m_reminder th = Some r) as Hr by (vm_compute; reflexivity).
  split; [exact Hth|]. split; [exact Hr|].
  destruct (C2_check_put_deactivate s 0 th r Hth Hr) as (_ & _ & Hput & _).
  destruct (Hput eq_refl) as (Hos & _ & Hheap & _).
  split; [exact Hos|exact Hheap].
Defined.


Lemma C4_past_due_loaded_inactive_witness :
  let d := mk_reminder_data "r1" "Pills" "" "2024-01-01 09:00" true in
  let ds := [mk_reminder_data "r0" "Walk" "" "2024-01-01 10:30" true; d] in
  let trig := mk_datetime 2024 1 1 9 0 0 0 in
  let acts := [ATick five_past_ten] ++ replicate 8 (AMonitor 0)
              ++ [AEdit "r1"; AAdd tea_at_10_05 "u1"]
              ++ replicate 8 (AMonitor 0) in
  let s := startup ten_o_clock (Some ds) in
  (NoDup (map d_id ds) ∧
   Forall (λ d', is_Some (strptime (d_trigger_time d'))) ds ∧
   d ∈ ds ∧
   strptime (d_trigger_time d) = Some trig ∧
   ltb trig ten_o_clock = true ∧
   fresh_run s acts = true) ∧
  (is_active <$> heap s !! 1%nat = Some false) ∧
  monitoring_threads s !! "r1" = None ∧
  "r1" ∉ enqueued_ids (run s acts).2.
Proof.
  intros d ds trig acts s.
  assert (NoDup (map d_id ds)) as Hnd.
  { apply (bool_decide_unpack _). vm_compute. exact I. }
  assert (Forall (λ d', is_Some (strptime (d_trigger_time d'))) ds) as Hp.
  { repeat constructor; vm_compute; eexists; reflexivity. }
  assert (d ∈ ds) as Hin by (apply list_elem_of_further, list_elem_of_here).
  assert (strptime (d_trigger_time d) = Some trig) as Ht
    by (vm_compute; reflexivity).
  assert (ltb trig ten_o_clock = true) as Hlt by (vm_compute; reflexivity).
  assert (fresh_run s acts = true) as Hf by (vm_compute; reflexivity).
  split; [by repeat split|].
  destruct (C4_past_due_loaded_inactive ten_o_clock ds d trig acts
              Hnd Hp Hin Ht Hlt) as (_ & Hm & Hno).
  split; [vm_compute; reflexivity|]. split; [exact Hm|exact (Hno Hf)].
Defined.


(** * Further properties of the code *)

(** ** What [strptime] returns *)

Lemma first_some_Some {A B} (f : A → option B) l y :
  first_some f l = Some y → ∃ x, x ∈ l ∧ f x = Some y.
Proof.
  induction l as [|x l IH]; simpl; [done|].
  destruct (f x) as [y'|] eqn:E.
  - intros [= <-]. exists x. split; [apply list_elem_of_here|done].
  - intros (x' & Hin & Hx')%IH. exists x'. split; [|done].
    by apply list_elem_of_further.
Qed.

Lemma digit_of_range c d : digit_of c = Some d → 0 <= d <= 9.
Proof.
  unfold digit_of. case_match eqn:E; [|done]. intros [= <-].
  apply andb_prop in E as [?%Z.leb_le ?%Z.leb_le]. lia.
Qed.

Lemma match_2_1_range ok2 ok1 hi s v rest :
  (∀ d1 d2, 0 <= d1 <= 9 → 0 <= d2 <= 9 → ok2 d1 d2 = true →
            10 * d1 + d2 <= hi) →
  9 <= hi →
  (v, rest) ∈ match_2_1 ok2 ok1 s → 0 <= v <= hi.
Proof.
  intros Hok Hhi. unfold match_2_1, two_digits, one_digit.
  intros [Hin|Hin]%elem_of_app.
  - destruct s as [|c1 [|c2 s']]; try (by apply elem_of_nil in Hin).
    destruct (digit_of c1) as [d1|] eqn:E1; [|by apply elem_of_nil in Hin].
    destruct (digit_of c2) as [d2|] eqn:E2; [|by apply elem_of_nil in Hin].
    apply digit_of_range in E1, E2.
    destruct (ok2 d1 d2) eqn:E; [|by apply elem_of_nil in Hin].
    apply list_elem_of_singleton in Hin as [= -> ->].
    split; [lia|]. by apply Hok.
  - destruct s as [|c s']; [by apply elem_of_nil in Hin|].
    destruct (digit_of c) as [d|] eqn:E1; [|by apply elem_of_nil in Hin].
    apply digit_of_range in E1.
    destruct (ok1 d); [|by apply elem_of_nil in Hin].
    apply list_elem_of_singleton in Hin as [= -> ->]. lia.
Qed.

Lemma strptime_match_range s y m d h mi rest :
  strptime_match s = Some (y, m, d, h, mi, rest) →
  0 <= h <= 23 ∧ 0 <= mi <= 59.
Proof.
  unfold strptime_match.
  intros ([y' s1] & _ & H)%first_some_Some.
  destruct (match_lit "-" s1) as [s2|]; [|done]. simpl in H.
  apply first_some_Some in H as ([m' s3] & _ & H).
  destruct (match_lit "-" s3) as [s4|]; [|done]. simpl in H.
  apply first_some_Some in H as ([d' s5] & _ & H).
  apply first_some_Some in H as (s6 & _ & H).
  apply first_some_Some in H as ([h' s7] & Hh & H).
  destruct (match_lit ":" s7) as [s8|]; [|done]. simpl in H.
  apply first_some_Some in H as ([mi' s9] & Hmi & H).
  injection H as -> -> -> -> -> ->.
  unfold match_H in Hh. unfold match_M in Hmi.
  split.
  - eapply match_2_1_range; [| |exact Hh]; [|lia].
    intros d1 d2 H1 H2 Hok. simpl in Hok. lia.
  - eapply match_2_1_range; [| |exact Hmi]; [|lia].
    intros d1 d2 H1 H2 Hok. simpl in Hok. lia.
Qed.

Lemma strptime_minute_precise s t :
  strptime s = Some t → minute_precise t = true.
Proof.
  unfold strptime.
  destruct (strptime_match s) as [[[[[[y m] d] h] mi] rest]|] eqn:E; [|done].
  destruct rest; [|done].
  destruct (valid_date y m d) eqn:Hv; [|done]. intros [= <-].
  apply strptime_match_range in E as [Hh Hmi].
  unfold minute_precise, valid. simpl. rewrite Hv. simpl.
  repeat (apply andb_true_intro; split); lia.
Qed.

Lemma minute_precise_round_trip t :
  minute_precise t = true → strptime (strftime t) = Some t.
Proof.
  unfold minute_precise. intros H.
  apply andb_prop in H as [H Hus]. apply andb_prop in H as [Hv Hs].
  rewrite strptime_strftime by done. f_equal.
  apply truncate_minute_id. lia.
Qed.

Lemma refs_insert_same (ths : list Monitor) tid th th' :
  ths !! tid = Some th → m_reminder th' = m_reminder th →
  map m_reminder (<[tid := th']> ths) = map m_reminder ths.
Proof.
  intros Hth Href. rewrite list_fmap_insert. apply list_insert_id.
  by rewrite list_lookup_fmap, Hth, Href.
Qed.

Lemma one_monitor_new s ref rid r :
  wf s → one_monitor_each s → ref = length (heap s) →
  one_monitor_each (start_monitor ref rid (store_new r s)).
Proof.
  intros [_ Hrefs _] Hnd ->. unfold one_monitor_each, start_monitor, store_new.
  proj_simpl. rewrite map_app. simpl. apply NoDup_app.
  split; [done|]. split; [|apply NoDup_singleton].
  intros x (th & Hx & Hth)%list_elem_of_fmap Hx'%list_elem_of_singleton.
  rewrite Forall_forall in Hrefs. apply Hrefs in Hth. lia.
Qed.

Lemma one_monitor_step s a :
  wf s → one_monitor_each s → one_monitor_each (step s a).1.
Proof.
  intros Hwf Hnd. unfold one_monitor_each in *.
  step_cases a; try done.
  all: try (by apply one_monitor_new).
  all: by erewrite refs_insert_same.
Qed.

Lemma triggers_step s a :
  triggers_to_the_minute s → triggers_to_the_minute (step s a).1.
Proof.
  intros Hp. unfold triggers_to_the_minute in *.
  step_cases a; try done.
  all: try (apply Forall_alter; [done|]; intros ? _ ?; simpl;
            first [done | by eapply strptime_minute_precise]).
  unfold start_monitor, store_new. proj_simpl.
  apply Forall_app. split; [done|]. apply Forall_singleton. simpl.
  by eapply strptime_minute_precise.
Qed.

Lemma one_monitor_load_one s d s' :
  load_one s d = Some s' → wf s → one_monitor_each s → one_monitor_each s'.
Proof.
  intros (trig & active & Htrig & _ & ->)%load_one_spec Hwf Hnd.
  destruct active; [by apply one_monitor_new|done].
Qed.

Lemma triggers_load_one s d s' :
  load_one s d = Some s' → triggers_to_the_minute s →
  triggers_to_the_minute s'.
Proof.
  intros (trig & active & Htrig & _ & ->)%load_one_spec Hp.
  assert (triggers_to_the_minute
            (store_new (mk_Reminder (d_id d) (d_title d) (d_description d)
                          trig active) s)) as Hp'.
  { unfold triggers_to_the_minute, store_new. proj_simpl.
    apply Forall_app. split; [done|]. apply Forall_singleton. simpl.
    by eapply strptime_minute_precise. }
  by destruct active.
Qed.

Lemma one_monitor_load_all s ds :
  wf s → NoDup (map d_id ds) → (∀ d, d ∈ ds → d_id d ∉ heap_ids s) →
  budget [] s → one_monitor_each s → one_monitor_each (load_all s ds).
Proof.
  revert s. induction ds as [|d ds IH]; intros s Hwf Hnd Hfresh Hb Hm; [done|].
  simpl. destruct (load_one s d) as [s'|] eqn:E; [|done].
  apply NoDup_cons in Hnd as [Hd Hnd].
  destruct (load_one_inv _ _ _ E) as [Hwf' Hb']; [|done..|].
  { apply Hfresh. apply list_elem_of_here. }
  apply IH; [done..| |done|by eapply one_monitor_load_one].
  intros d' Hd'. rewrite (load_one_heap_ids _ _ _ E).
  rewrite elem_of_app, list_elem_of_singleton. intros [Hin|Heq].
  - eapply Hfresh; [|exact Hin]. by apply list_elem_of_further.
  - apply Hd. rewrite <- Heq. by apply list_elem_of_fmap_2.
Qed.

Lemma triggers_load_all s ds :
  triggers_to_the_minute s → triggers_to_the_minute (load_all s ds).
Proof.
  revert s. induction ds as [|d ds IH]; intros s Hp; [done|].
  simpl. destruct (load_one s d) as [s'|] eqn:E; [|done].
  apply IH. by eapply triggers_load_one.
Qed.

Lemma startup_one_monitor t file :
  NoDup (map d_id (default [] file)) → one_monitor_each (startup t file).
Proof.
  intros Hnd. destruct (init_app_inv t) as [Hwf Hb].
  unfold startup, _load_reminders. destruct file as [ds|].
  - apply one_monitor_load_all; try done.
    + intros d _ Hin. by apply elem_of_nil in Hin.
    + apply NoDup_nil_2.
  - apply NoDup_nil_2.
Qed.

Lemma startup_triggers t file : triggers_to_the_minute (startup t file).
Proof.
  unfold startup, _load_reminders. destruct file as [ds|].
  - apply triggers_load_all. apply Forall_nil_2.
  - apply Forall_nil_2.
Qed.

Lemma one_monitor_run s acts :
  wf s → fresh_run s acts = true → one_monitor_each s →
  one_monitor_each (run s acts).1.
Proof.
  revert s. induction acts as [|a acts IH]; intros s Hwf Hfresh Hm; [done|].
  simpl in Hfresh. apply andb_prop in Hfresh as [Hfa Hfr].
  rewrite run_cons. cbn [fst].
  apply IH; [by apply wf_step|done|by apply one_monitor_step].
Qed.

Lemma triggers_run s acts :
  triggers_to_the_minute s → triggers_to_the_minute (run s acts).1.
Proof.
  revert s. induction acts as [|a acts IH]; intros s Hp; [done|].
  rewrite run_cons. cbn [fst]. apply IH. by apply triggers_step.
Qed.

(** X1. In every state reached from a file with distinct ids (with
    [uuid4] never repeating one), the keys of [reminders] are exactly
    the ids of the objects stored under them, and no two [Reminder]
    objects ever built carry the same id. *)
Theorem store_files_each_reminder_under_its_id (t : datetime)
    (file : option (list reminder_data)) (acts : list Action) :
  NoDup (map d_id (default [] file)) →
  fresh_run (startup t file) acts = true →
  let s := (run (startup t file) acts).1 in
  (∀ k, k ∈ dom (reminders s) ↔
        ∃ ref r, reminders s !! k = Some ref ∧ heap s !! ref = Some r ∧
                 reminder_id r = k) ∧
  NoDup (map reminder_id (heap s)).
Proof.
  intros Hnd Hfresh s. destruct (startup_inv t file Hnd) as [Hwf0 _].
  pose proof (wf_run _ _ Hwf0 Hfresh) as [Hids _ Hst]. fold s in Hids, Hst.
  split; [|exact Hids]. intros k. rewrite elem_of_dom. split.
  - intros [ref Hk]. pose proof (Hst _ _ Hk) as Hx.
    unfold heap_ids in Hx. rewrite list_lookup_fmap in Hx.
    destruct (heap s !! ref) as [r|] eqn:Hr; [|done].
    exists ref, r. simpl in Hx. by injection Hx as ->.
  - intros (ref & r & Hk & _). by exists ref.
Qed.

(** X2. In every such state no two monitoring threads watch
    reminders with the same id: there is at most one monitor per
    reminder. *)
Theorem no_two_monitors_share_a_reminder (t : datetime)
    (file : option (list reminder_data)) (acts : list Action)
    (i j : nat) (thi thj : Monitor) (ri rj : Reminder) :
  NoDup (map d_id (default [] file)) →
  fresh_run (startup t file) acts = true →
  let s := (run (startup t file) acts).1 in
  threads s !! i = Some thi → threads s !! j = Some thj →
  heap s !! m_reminder thi = Some ri → heap s !! m_reminder thj = Some rj →
  reminder_id ri = reminder_id rj →
  i = j.
Proof.
  intros Hnd Hfresh s Hi Hj Hri Hrj Hid.
  destruct (startup_inv t file Hnd) as [Hwf0 _].
  pose proof (wf_run _ _ Hwf0 Hfresh) as [Hids _ _]. fold s in Hids.
  pose proof (one_monitor_run _ _ Hwf0 Hfresh (startup_one_monitor t file Hnd))
    as Hm. fold s in Hm.
  assert (m_reminder thi = m_reminder thj) as Href.
  { eapply NoDup_lookup; [exact Hids| |];
      unfold heap_ids; rewrite list_lookup_fmap.
    - by rewrite Hri.
    - rewrite Hrj. simpl. by rewrite Hid. }
  eapply NoDup_lookup; [exact Hm| |]; rewrite list_lookup_fmap.
  - by rewrite Hi.
  - rewrite Hj. simpl. by rewrite Href.
Qed.

(** ** The saved file *)

Lemma saved_elem s d :
  d ∈ _save_reminders s ↔
  ∃ k ref r, reminders s !! k = Some ref ∧ heap s !! ref = Some r ∧
             d = to_dict r.
Proof.
  unfold _save_reminders. rewrite list_elem_of_omap. split.
  - intros ([k ref] & Hin & Hd). apply elem_of_map_to_list in Hin.
    simpl in Hd. destruct (heap s !! ref) as [r|] eqn:Hr; [|done].
    injection Hd as <-. by exists k, ref, r.
  - intros (k & ref & r & Hk & Hr & ->). exists (k, ref). split.
    + by apply elem_of_map_to_list.
    + simpl. by rewrite Hr.
Qed.

Lemma saved_ids s :
  wf s → map d_id (_save_reminders s) = (map_to_list (reminders s)).*1.
Proof.
  intros [_ _ Hst]. unfold _save_reminders.
  assert (Forall (λ kv, reminders s !! kv.1 = Some kv.2)
            (map_to_list (reminders s))) as Hall.
  { apply Forall_forall. intros [k ref] Hin.
    by apply elem_of_map_to_list in Hin. }
  induction Hall as [|[k ref] l Hk _ IH]; [done|]. csimpl.
  simpl in Hk. apply Hst in Hk. unfold heap_ids in Hk.
  rewrite list_lookup_fmap in Hk.
  destruct (heap s !! ref) as [r|]; [|done]. simpl in *.
  injection Hk as ->. by rewrite IH.
Qed.

Lemma saved_ids_distinct s :
  wf s → NoDup (map d_id (_save_reminders s)).
Proof. intros Hwf. rewrite saved_ids by done. apply NoDup_fst_map_to_list. Qed.

Lemma heap_trigger_reads_back s ref r :
  triggers_to_the_minute s → heap s !! ref = Some r →
  second (trigger_time r) = 0 ∧ microsecond (trigger_time r) = 0 ∧
  strptime (d_trigger_time (to_dict r)) = Some (trigger_time r).
Proof.
  intros Hp Hr. unfold triggers_to_the_minute in Hp.
  rewrite Forall_forall in Hp.
  assert (minute_precise (trigger_time r) = true) as Hmp.
  { apply Hp. by eapply list_elem_of_lookup_2. }
  split; [|split; [|by apply minute_precise_round_trip]];
    unfold minute_precise in Hmp;
    apply andb_prop in Hmp as [Hmp Hus]; apply andb_prop in Hmp as [_ Hs]; lia.
Qed.

(** X3. In every state reached from a file with distinct ids, the
    file [_save_reminders] writes has exactly one entry per stored
    reminder: its ids are distinct and are the keys of [reminders]. *)
Theorem saved_file_has_one_entry_per_stored_id (t : datetime)
    (file : option (list reminder_data)) (acts : list Action) :
  NoDup (map d_id (default [] file)) →
  fresh_run (startup t file) acts = true →
  let s := (run (startup t file) acts).1 in
  NoDup (map d_id (_save_reminders s)) ∧
  (∀ k, k ∈ map d_id (_save_reminders s) ↔ k ∈ dom (reminders s)) ∧
  length (_save_reminders s) = size (reminders s).
Proof.
  intros Hnd Hfresh s.
  destruct (startup_inv t file Hnd) as [Hwf0 _].
  pose proof (wf_run _ _ Hwf0 Hfresh) as Hwf. fold s in Hwf.
  pose proof (saved_ids s Hwf) as E. split; [|split].
  - by apply saved_ids_distinct.
  - intros k. rewrite E, elem_of_dom. split.
    + intros ([k' ref] & -> & Hin)%list_elem_of_fmap.
      apply elem_of_map_to_list in Hin. by exists ref.
    + intros [ref Hk]. apply list_elem_of_fmap. exists (k, ref).
      split; [done|]. by apply elem_of_map_to_list.
  - rewrite <- (length_map d_id), E, length_map. apply length_map_to_list.
Qed.


(** ** Loading what was saved *)

Lemma load_one_stores s d trig :
  strptime (d_trigger_time d) = Some trig →
  ∃ s', load_one s d = Some s' ∧
        reminders s' !! d_id d = Some (length (heap s)) ∧
        heap s' !! length (heap s)
          = Some (mk_Reminder (d_id d) (d_title d) (d_description d) trig
                    (if gtb (now s) trig then false else d_is_active d)).
Proof.
  intros Htrig. unfold load_one. rewrite Htrig. simpl. eexists.
  split; [reflexivity|].
  destruct (if gtb (now s) trig then false else d_is_active d);
    unfold start_monitor, store_new; proj_simpl;
    (split; [apply lookup_insert_eq|by apply list_lookup_middle]).
Qed.

(** An entry of a file that loads to the end is stored under its id
    with its text fields, its parsed trigger time and its flag, cleared
    if the time is past. *)
Lemma startup_entry t ds d trig :
  NoDup (map d_id ds) →
  Forall (λ d', is_Some (strptime (d_trigger_time d'))) ds →
  d ∈ ds →
  strptime (d_trigger_time d) = Some trig →
  let s := startup t (Some ds) in
  ∃ ref, reminders s !! d_id d = Some ref ∧
         heap s !! ref
           = Some (mk_Reminder (d_id d) (d_title d) (d_description d) trig
                     (if gtb t trig then false else d_is_active d)).
Proof.
  intros Hnd Hparse Hin Htrig s.
  apply list_elem_of_split in Hin as (l1 & l2 & ->).
  rewrite map_app in Hnd. simpl in Hnd.
  apply NoDup_app in Hnd as (_ & _ & [Hl2 _]%NoDup_cons).
  apply Forall_app in Hparse as [Hp1 _].
  set (s1 := load_all (init_app t) l1).
  destruct (load_all_ext (init_app t) l1) as (Hn1 & _). fold s1 in Hn1.
  destruct (load_one_stores s1 d trig Htrig) as (s2 & E2 & Hr2 & Hh2).
  assert (s = load_all s2 l2) as Es.
  { subst s. unfold startup, _load_reminders.
    rewrite load_all_app by done. fold s1. simpl. by rewrite E2. }
  destruct (load_all_ext s2 l2) as (_ & [h Hh] & Hk & _).
  rewrite <- Es in Hh, Hk. destruct (Hk _ Hl2) as [Hr _].
  exists (length (heap s1)). split; [by rewrite Hr|].
  rewrite Hh. rewrite lookup_app_l by (by eapply lookup_lt_Some).
  rewrite Hh2. by rewrite Hn1.
Qed.


(** ** One iteration of a monitor *)

Lemma at_pc_here s tid ref p c :
  threads s !! tid = Some (mk_Monitor ref p c) → at_pc tid ref p c s = s.
Proof.
  intros H. unfold at_pc. rewrite list_insert_id by done. by destruct s.
Qed.

Lemma at_pc_step s tid ref p c r :
  (tid < length (threads s))%nat →
  heap s !! ref = Some r →
  _monitor_reminder (at_pc tid ref p c s) tid =
    match p with
    | MLoopTest =>
        if stop_event s then (at_pc tid ref MExited c s, [])
        else (at_pc tid ref MLookup c s, [])
    | MLookup =>
        match monitoring_threads s !! reminder_id r with
        | Some _ => (at_pc tid ref MNow c s, [])
        | None =>
            (at_pc tid ref MCrashed c s,
             [ThreadRaised tid (KeyError (reminder_id r))])
        end
    | MNow => (at_pc tid ref MCheckInactive (now s) s, [])
    | MCheckInactive =>
        if is_active r then (at_pc tid ref MCheckDue c s, [])
        else (at_pc tid ref MExited c s, [])
    | MCheckDue =>
        if geb c (trigger_time r) then (at_pc tid ref MCheckActive c s, [])
        else (at_pc tid ref MSleep c s, [])
    | MCheckActive =>
        if is_active r then (at_pc tid ref MPut c s, [])
        else (at_pc tid ref MSleep c s, [])
    | MPut =>
        (at_pc tid ref MDeactivate c
           (with_queue (notification_queue s
                        ++ [mk_Notification (title r) (description r)]) s),
         [Enqueued tid (reminder_id r)
            (mk_Notification (title r) (description r))])
    | MDeactivate =>
        (at_pc tid ref MExited c
           (with_heap (alter deactivate ref (heap s)) s), [])
    | MSleep => (at_pc tid ref MLoopTest c s, [])
    | MExited | MCrashed => (at_pc tid ref p c s, [])
    end.
Proof.
  intros Hlt Hr.
  assert (threads (at_pc tid ref p c s) !! tid = Some (mk_Monitor ref p c))
    as Hth by (by apply list_lookup_insert_eq).
  rewrite (monitor_step _ _ _ r Hth) by done.
  unfold at_pc, goto. cbn [m_pc m_reminder m_current_time].
  destruct p; proj_simpl; rewrite ?list_insert_insert_eq; try done;
    by repeat case_match.
Qed.

Lemma at_pc_length tid ref p c s :
  length (threads (at_pc tid ref p c s)) = length (threads s).
Proof. unfold at_pc. simpl. apply length_insert. Qed.

Lemma monitor_fires (s : App) (tid ref : nat) (c : datetime)
    (r : Reminder) :
  threads s !! tid = Some (mk_Monitor ref MLoopTest c) →
  heap s !! ref = Some r →
  is_active r = true →
  stop_event s = false →
  is_Some (monitoring_threads s !! reminder_id r) →
  geb (now s) (trigger_time r) = true →
  let n := mk_Notification (title r) (description r) in
  run s (replicate 8 (AMonitor tid))
  = (at_pc tid ref MExited (now s)
       (with_heap (alter deactivate ref (heap s))
          (with_queue (notification_queue s ++ [n]) s)),
     [Enqueued tid (reminder_id r) n]).
Proof.
  intros Hth Hr Hact Hstop [x Hmt] Hdue n.
  assert (tid < length (threads s))%nat as Hlt by (by eapply lookup_lt_Some).
  rewrite <- (at_pc_here _ _ _ _ _ Hth) at 1. cbn [replicate].
  pose proof (at_pc_step s tid ref MLoopTest c r Hlt Hr) as E1.
  rewrite Hstop in E1. rewrite (run_monitor _ _ _ _ _ E1).
  pose proof (at_pc_step s tid ref MLookup c r Hlt Hr) as E2.
  rewrite Hmt in E2. rewrite (run_monitor _ _ _ _ _ E2).
  pose proof (at_pc_step s tid ref MNow c r Hlt Hr) as E3.
  rewrite (run_monitor _ _ _ _ _ E3).
  pose proof (at_pc_step s tid ref MCheckInactive (now s) r Hlt Hr) as E4.
  rewrite Hact in E4. rewrite (run_monitor _ _ _ _ _ E4).
  pose proof (at_pc_step s tid ref MCheckDue (now s) r Hlt Hr) as E5.
  rewrite Hdue in E5. rewrite (run_monitor _ _ _ _ _ E5).
  pose proof (at_pc_step s tid ref MCheckActive (now s) r Hlt Hr) as E6.
  rewrite Hact in E6. rewrite (run_monitor _ _ _ _ _ E6).
  pose proof (at_pc_step s tid ref MPut (now s) r Hlt Hr) as E7.
  rewrite (run_monitor _ _ _ _ _ E7).
  pose proof (at_pc_step (with_queue (notification_queue s ++ [n]) s)
                tid ref MDeactivate (now s) r Hlt Hr) as E8.
  rewrite (run_monitor _ _ _ _ _ E8).
  reflexivity.
Qed.

Lemma monitor_waits (s : App) (tid ref : nat) (c : datetime)
    (r : Reminder) :
  threads s !! tid = Some (mk_Monitor ref MLoopTest c) →
  heap s !! ref = Some r →
  is_active r = true →
  stop_event s = false →
  is_Some (monitoring_threads s !! reminder_id r) →
  ltb (now s) (trigger_time r) = true →
  run s (replicate 6 (AMonitor tid))
  = (at_pc tid ref MLoopTest (now s) s, []).
Proof.
  intros Hth Hr Hact Hstop [x Hmt] Hearly.
  assert (geb (now s) (trigger_time r) = false) as Hdue
    by (unfold geb; by rewrite Hearly).
  assert (tid < length (threads s))%nat as Hlt by (by eapply lookup_lt_Some).
  rewrite <- (at_pc_here _ _ _ _ _ Hth) at 1. cbn [replicate].
  pose proof (at_pc_step s tid ref MLoopTest c r Hlt Hr) as E1.
  rewrite Hstop in E1. rewrite (run_monitor _ _ _ _ _ E1).
  pose proof (at_pc_step s tid ref MLookup c r Hlt Hr) as E2.
  rewrite Hmt in E2. rewrite (run_monitor _ _ _ _ _ E2).
  pose proof (at_pc_step s tid ref MNow c r Hlt Hr) as E3.
  rewrite (run_monitor _ _ _ _ _ E3).
  pose proof (at_pc_step s tid ref MCheckInactive (now s) r Hlt Hr) as E4.
  rewrite Hact in E4. rewrite (run_monitor _ _ _ _ _ E4).
  pose proof (at_pc_step s tid ref MCheckDue (now s) r Hlt Hr) as E5.
  rewrite Hdue in E5. rewrite (run_monitor _ _ _ _ _ E5).
  pose proof (at_pc_step s tid ref MSleep (now s) r Hlt Hr) as E6.
  rewrite (run_monitor _ _ _ _ _ E6).
  reflexivity.
Qed.

(** ** Closing *)

Lemma closing_step s a :
  closing s → closing (step s a).1 ∧ enqueued (step s a).2 = [].
Proof.
  intros [Hstop Hall].
  assert (∀ tid th, threads s !! tid = Some th →
                    between_iterations (m_pc th) = true) as Hpc.
  { intros tid th Hth. rewrite Forall_forall in Hall. apply Hall.
    by eapply list_elem_of_lookup_2. }
  unfold closing.
  step_cases a; cbn [enqueued omap list_omap]; try done.
  all: try (unfold start_monitor, store_new; proj_simpl; split; [|done];
            split; [done|]; apply Forall_app; split; [done|];
            by apply Forall_singleton).
  all: try (split; [split; [done|]; by apply Forall_insert|done]).
  all: try congruence.
  all: match goal with
       | Hth : threads _ !! _ = Some ?m, Hp : m_pc ?m = _ |- _ =>
           apply Hpc in Hth; rewrite Hp in Hth; done
       end.
Qed.

(** X8. Once [on_closing] has set [stop_event], if every monitor is
    between two iterations of its loop (or past its [put]), no run
    enqueues a notification any more: each monitor leaves at its next
    loop test, also the monitors of reminders added afterwards. *)
Theorem nothing_enqueued_after_closing (s : App) (acts : list Action) :
  Forall (λ th, between_iterations (m_pc th) = true) (threads s) →
  enqueued (run (on_closing s) acts).2 = [].
Proof.
  intros Hall.
  assert (closing (on_closing s)) as Hc by (by split).
  revert Hc. generalize (on_closing s). clear s Hall.
  induction acts as [|a acts IH]; intros s Hc; [done|].
  rewrite run_cons. cbn [snd]. rewrite enqueued_app.
  destruct (closing_step s a Hc) as [Hc' ->]. by apply IH.
Qed.

(** ** The handler *)

(** X9. While the application is not closing, a handler standing at
    its loop test empties a queue of [k] notifications in [2 * k] of
    its steps, dispatching them in queue order. *)
Theorem handler_drains_queue (s : App) :
  handler s = HLoopTest →
  stop_event s = false →
  run s (replicate (2 * length (notification_queue s)) AHandler)
  = (with_queue [] s, Dispatched <$> notification_queue s).
Proof.
  intros Hh Hstop.
  remember (notification_queue s) as q eqn:Hq.
  revert s Hh Hstop Hq. induction q as [|n q IH]; intros s Hh Hstop Hq.
  - simpl. destruct s. simpl in *. by subst.
  - replace (2 * length (n :: q))%nat with (S (S (2 * length q)))
      by (simpl; lia).
    cbn [replicate].
    assert (step s AHandler = (with_handler HGet s, [])) as E1.
    { simpl. unfold _handle_notifications. by rewrite Hh, Hstop. }
    assert (step (with_handler HGet s) AHandler
            = (with_handler HLoopTest (with_queue q s), [Dispatched n])) as E2.
    { simpl. unfold _handle_notifications. simpl. by rewrite <- Hq. }
    rewrite (run_step _ _ _ _ _ E1), (run_step _ _ _ _ _ E2).
    rewrite (IH (with_handler HLoopTest (with_queue q s))) by done.
    cbn [fst snd app]. f_equal.
    destruct s. simpl in *. by subst.
Qed.

(** X6. A monitor at its loop test whose reminder is active and due,
    with its id present in [monitoring_threads] and the application
    not closing, fires in eight steps: it enqueues one notification
    with the reminder's title and description, clears [is_active] and
    exits; the store itself is not touched. *)
Theorem due_monitor_fires (s : App) (tid ref : nat) (c : datetime)
    (r : Reminder) :
  threads s !! tid = Some (mk_Monitor ref MLoopTest c) →
  heap s !! ref = Some r →
  is_active r = true →
  stop_event s = false →
  is_Some (monitoring_threads s !! reminder_id r) →
  geb (now s) (trigger_time r) = true →
  let n := mk_Notification (title r) (description r) in
  let s' := (run s (replicate 8 (AMonitor tid))).1 in
  (run s (replicate 8 (AMonitor tid))).2 = [Enqueued tid (reminder_id r) n] ∧
  notification_queue s' = notification_queue s ++ [n] ∧
  heap s' = alter deactivate ref (heap s) ∧
  threads s' = <[tid := mk_Monitor ref MExited (now s)]> (threads s) ∧
  reminders s' = reminders s.
Proof.
  intros Hth Hr Hact Hstop Hmt Hdue n s'. subst s'.
  by rewrite (monitor_fires s tid ref c r).
Qed.

(** X7. Under the same conditions but with the clock still before
    the trigger time, one iteration (six steps) enqueues nothing and
    changes nothing but the monitor's own clock reading; the monitor
    is back at its loop test. *)
Theorem early_monitor_sleeps (s : App) (tid ref : nat) (c : datetime)
    (r : Reminder) :
  threads s !! tid = Some (mk_Monitor ref MLoopTest c) →
  heap s !! ref = Some r →
  is_active r = true →
  stop_event s = false →
  is_Some (monitoring_threads s !! reminder_id r) →
  ltb (now s) (trigger_time r) = true →
  run s (replicate 6 (AMonitor tid))
  = (with_threads (<[tid := mk_Monitor ref MLoopTest (now s)]> (threads s)) s,
     []).
Proof. apply monitor_waits. Qed.

Lemma add_accepted s f uuid trig :
  accepted s f trig →
  _add_reminder s f uuid =
    match editing (editing_reminder_id s) with
    | Some rid =>
        match reminders s !! rid with
        | None => (s, [MainRaised (KeyError rid)])
        | Some ref =>
            let s' :=
              with_editing AttrNone
                (with_heap
                   (alter (λ r, mk_Reminder (reminder_id r)
                                  (strip (title_entry f))
                                  (strip (description_entry f)) trig true)
                          ref (heap s)) s) in
            (s', [Saved (_save_reminders s');
                  ShowInfo (success_message (editing_reminder_id s))])
        end
    | None =>
        let r := mk_Reminder uuid (strip (title_entry f))
                   (strip (description_entry f)) trig true in
        let s' := start_monitor (length (heap s)) uuid (store_new r s) in
        (s', [Saved (_save_reminders s');
              ShowInfo (success_message (editing_reminder_id s))])
    end.
Proof.
  intros (Ht & Hp & Hn). unfold _add_reminder.
  rewrite decide_False by done. by rewrite Hp, Hn.
Qed.

(** X10. A reminder added through an accepted form, outside edit
    mode and while the application is not closing, fires once the
    clock has reached its trigger time: after the add, the tick and
    eight steps of the new monitor, exactly one notification has been
    enqueued, carrying the stripped title and description, and the new
    reminder is stored inactive. *)
Theorem added_reminder_fires_when_due (s : App) (f : Form) (uuid : string)
    (trig t' : datetime) :
  accepted s f trig →
  editing (editing_reminder_id s) = None →
  stop_event s = false →
  leb (now s) t' = true →
  geb t' trig = true →
  let n := mk_Notification (strip (title_entry f))
             (strip (description_entry f)) in
  let r := run s ([AAdd f uuid; ATick t']
                  ++ replicate 8 (AMonitor (length (threads s)))) in
  enqueued r.2 = [n] ∧
  enqueued_ids r.2 = [uuid] ∧
  notification_queue r.1 = notification_queue s ++ [n] ∧
  heap r.1 = heap s ++ [mk_Reminder uuid (n_title n) (n_description n)
                          trig false].
Proof.
  intros Hacc Hed Hstop Hle Hdue n r. subst r.
  pose proof (add_accepted s f uuid trig Hacc) as E1. rewrite Hed in E1.
  cbv zeta in E1.
  set (r0 := mk_Reminder uuid (strip (title_entry f))
               (strip (description_entry f)) trig true) in *.
  set (s1 := start_monitor (length (heap s)) uuid (store_new r0 s)) in *.
  assert (step s1 (ATick t') = (with_now t' s1, [])) as E2.
  { simpl. change (now s1) with (now s). by rewrite Hle. }
  change (_add_reminder s f uuid) with (step s (AAdd f uuid)) in E1.
  cbn [app]. rewrite (run_step _ _ _ _ _ E1), (run_step _ _ _ _ _ E2).
  rewrite (monitor_fires (with_now t' s1) (length (threads s))
             (length (heap s)) (now s) r0); try done.
  - cbn [fst snd app]. repeat split.
    cbn [heap with_heap with_queue at_pc with_threads with_now].
    subst s1. unfold start_monitor, store_new. proj_simpl.
    apply list_eq. intros i.
    destruct (decide (i = length (heap s))) as [->|Hne].
    + rewrite list_lookup_alter_eq, !list_lookup_middle by done. done.
    + rewrite list_lookup_alter_ne by done.
      destruct (decide (i < length (heap s))%nat).
      * by rewrite !lookup_app_l.
      * rewrite !lookup_ge_None_2; [done|rewrite length_app; simpl; lia..].
  - subst s1. unfold start_monitor, store_new. proj_simpl.
    by apply list_lookup_middle.
  - subst s1. unfold start_monitor, store_new. proj_simpl.
    by apply list_lookup_middle.
  - subst s1. unfold start_monitor, store_new. proj_simpl.
    rewrite lookup_insert_eq. by eexists.
Qed.

(** ** Loading, and what the monitors and callbacks never do *)

Lemma load_all_stops s ds1 d ds2 :
  Forall (λ d', is_Some (strptime (d_trigger_time d'))) ds1 →
  strptime (d_trigger_time d) = None →
  load_all s (ds1 ++ d :: ds2) = load_all s ds1.
Proof.
  intros Hp Hd. rewrite load_all_app by done. simpl.
  unfold load_one. by rewrite Hd.
Qed.

(** X11. An entry of the file whose trigger time does not parse ends
    the load: the entries before it are loaded, the entry and
    everything after it are dropped. *)
Theorem malformed_entry_drops_the_rest (t : datetime)
    (ds1 ds2 : list reminder_data) (d : reminder_data) :
  Forall (λ d', is_Some (strptime (d_trigger_time d'))) ds1 →
  strptime (d_trigger_time d) = None →
  startup t (Some (ds1 ++ d :: ds2)) = startup t (Some ds1).
Proof. intros Hp Hd. unfold startup. simpl. by apply load_all_stops. Qed.



(** ** Editing *)

Lemma editing_AttrId rid : rid ≠ "" → editing (AttrId rid) = Some rid.
Proof. intros H. simpl. by rewrite decide_False. Qed.

(** X14. Pressing "Edit" on a stored reminder and submitting an
    accepted form updates that reminder in place: same object and id,
    new title, description and trigger time, [is_active] set; the
    store's keys, the monitors, their handles and the queue are as
    before, and edit mode is left. *)
Theorem edit_updates_in_place (s : App) (rid : string) (ref : nat)
    (f : Form) (uuid : string) (trig : datetime) :
  reminders s !! rid = Some ref →
  rid ≠ "" →
  accepted s f trig →
  let s' := (run s [AEdit rid; AAdd f uuid]).1 in
  heap s' = alter (λ r, mk_Reminder (reminder_id r) (strip (title_entry f))
                          (strip (description_entry f)) trig true)
                  ref (heap s) ∧
  reminders s' = reminders s ∧
  threads s' = threads s ∧
  monitoring_threads s' = monitoring_threads s ∧
  notification_queue s' = notification_queue s ∧
  editing_reminder_id s' = AttrNone.
Proof.
  intros Hrid Hne Hacc s'. subst s'.
  assert (step s (AEdit rid) = (with_editing (AttrId rid) s, [])) as E1.
  { simpl. unfold _edit_reminder. by rewrite Hrid. }
  rewrite (run_step _ _ _ _ _ E1). cbn [run step].
  rewrite (add_accepted _ f uuid trig) by done.
  cbn [editing_reminder_id with_editing]. rewrite editing_AttrId by done.
  cbn [reminders with_editing]. rewrite Hrid. done.
Qed.

(** X15. A reminder stored under the empty id cannot be edited: the
    empty string is falsy in the test of [editing_reminder_id], so the
    submit adds a new reminder with a new monitor, leaves the old
    objects as they are, and edit mode stays set. *)
Theorem empty_id_edit_adds_a_reminder (s : App) (ref : nat)
    (f : Form) (uuid : string) (trig : datetime) :
  reminders s !! "" = Some ref →
  accepted s f trig →
  let s' := (run s [AEdit ""; AAdd f uuid]).1 in
  heap s' = heap s ++ [mk_Reminder uuid (strip (title_entry f))
                         (strip (description_entry f)) trig true] ∧
  reminders s' = <[uuid := length (heap s)]> (reminders s) ∧
  length (threads s') = S (length (threads s)) ∧
  editing_reminder_id s' = AttrId "".
Proof.
  intros Hrid Hacc s'. subst s'.
  assert (step s (AEdit "") = (with_editing (AttrId "") s, [])) as E1.
  { simpl. unfold _edit_reminder. by rewrite Hrid. }
  rewrite (run_step _ _ _ _ _ E1). cbn [run step].
  rewrite (add_accepted _ f uuid trig) by done.
  cbn [editing_reminder_id with_editing editing]. rewrite decide_True by done.
  unfold start_monitor, store_new. proj_simpl.
  repeat split; try done. rewrite length_app. simpl. lia.
Qed.

(** X16. Edit mode outlives the reminder: when a reminder is opened
    for editing and then removed, every later submit of an accepted
    form ends in an uncaught [KeyError] and leaves the state as it
    is. *)
Theorem edit_mode_survives_removal (s : App) (rid : string) (ref : nat)
    (f : Form) (uuid : string) (trig : datetime) :
  reminders s !! rid = Some ref →
  rid ≠ "" →
  let s2 := (run s [AEdit rid; ARemove rid]).1 in
  accepted s2 f trig →
  _add_reminder s2 f uuid = (s2, [MainRaised (KeyError rid)]).
Proof.
  intros Hrid Hne s2 Hacc.
  rewrite (add_accepted _ f uuid trig) by done.
  assert (editing_reminder_id s2 = AttrId rid ∧ reminders s2 !! rid = None)
    as [-> Hgone].
  { subst s2. simpl. unfold _edit_reminder. rewrite Hrid. simpl.
    unfold _remove_reminder. simpl. rewrite Hrid. simpl.
    split; [done|apply lookup_delete_eq]. }
  rewrite editing_AttrId by done. by rewrite Hgone.
Qed.

(** ** Removal *)

(** X17. In a well-formed state, removing a reminder leaves every
    other stored reminder in the store, with its object and its
    monitor handle unchanged. *)
Theorem removal_leaves_the_others (s : App) (rid k : string) (ref : nat) :
  wf s →
  is_Some (reminders s !! rid) →
  k ≠ rid →
  reminders s !! k = Some ref →
  let s' := (_remove_reminder s rid).1 in
  reminders s' !! k = Some ref ∧
  heap s' !! ref = heap s !! ref ∧
  monitoring_threads s' !! k = monitoring_threads s !! k.
Proof.
  intros [Hids _ Hst] [ref0 Hrid] Hk Href s'. subst s'.
  rewrite (remove_found _ _ _ Hrid). proj_simpl.
  rewrite !lookup_delete_ne by done. split; [done|]. split; [|done].
  apply list_lookup_alter_ne. intros ->.
  apply Hst in Href, Hrid. congruence.
Qed.


Lemma handle_kept_step s a k :
  a ≠ ARemove k →
  is_Some (monitoring_threads s !! k) →
  is_Some (monitoring_threads (step s a).1 !! k).
Proof.
  intros Hne Hk. step_cases a; try done.
  - unfold start_monitor, store_new. proj_simpl.
    rewrite lookup_insert. by destruct (decide (uuid = k)).
  - rewrite lookup_delete_ne; [done|]. congruence.
Qed.

(** X18. The handle of a monitor stays in [monitoring_threads] until
    [_remove_reminder] deletes it: no other action removes it, also
    not the monitor having fired or exited. *)
Theorem handle_stays_until_removal (s : App) (acts : list Action)
    (k : string) :
  ARemove k ∉ acts →
  is_Some (monitoring_threads s !! k) →
  is_Some (monitoring_threads (run s acts).1 !! k).
Proof.
  revert s. induction acts as [|a acts IH]; intros s Hno Hk; [done|].
  apply not_elem_of_cons in Hno as [Hne Hno].
  rewrite run_cons. cbn [fst]. apply IH; [done|].
  apply handle_kept_step; [congruence|done].
Qed.

Lemma ids_kept_step s a ref k :
  heap_ids s !! ref = Some k → heap_ids (step s a).1 !! ref = Some k.
Proof.
  intros H. unfold heap_ids in *.
  step_cases a; rewrite ?heap_ids_alter by done; try done.
  unfold start_monitor, store_new. proj_simpl. rewrite map_app.
  by apply lookup_app_l_Some.
Qed.

Lemma gone_alter rid (h : list Reminder) f n :
  (∀ ref r, h !! ref = Some r → reminder_id r = rid → is_active r = false) →
  (∀ r, reminder_id (f r) = reminder_id r) →
  (∀ r, h !! n = Some r → reminder_id r = rid → is_active (f r) = false) →
  ∀ ref r, alter f n h !! ref = Some r → reminder_id r = rid →
           is_active r = false.
Proof.
  intros Hh Hf Hfa ref r Hr Hid.
  destruct (decide (ref = n)) as [->|Hne].
  - rewrite list_lookup_alter_eq in Hr.
    destruct (h !! n) as [r0|] eqn:E; [|done]. simpl in Hr.
    injection Hr as <-. rewrite Hf in Hid. by apply Hfa.
  - rewrite list_lookup_alter_ne in Hr by done. by eapply Hh.
Qed.

Lemma gone_step rid s a :
  wf s → rid ∈ heap_ids s → gone rid s → fresh_action s a = true →
  gone rid (step s a).1.
Proof.
  intros Hwf Hin [Hr Hh] Hfresh. unfold gone.
  step_cases a; try done.
  - (* the edit goes to another object *)
    split; [done|]. apply gone_alter; [done|done|].
    intros r0 Hr0 Hid. exfalso.
    destruct Hwf as [_ _ Hst]. pose proof (Hst _ _ H3) as Hx.
    unfold heap_ids in Hx. rewrite list_lookup_fmap, Hr0 in Hx.
    simpl in Hx. congruence.
  - unfold start_monitor, store_new. proj_simpl.
    apply bool_decide_eq_true in Hfresh.
    assert (uuid ≠ rid) as Hne by (intros ->; done).
    split; [by rewrite lookup_insert_ne|].
    intros ref r [Hl|[_ Hl]]%lookup_app_Some Hid; [by eapply Hh|].
    apply list_lookup_singleton_Some in Hl as [_ <-]. simpl in Hid. done.
  - split.
    + rewrite lookup_delete. by case_decide.
    + by apply gone_alter.
  - split; [done|]. by apply gone_alter.
Qed.

Lemma gone_run rid s acts :
  wf s → rid ∈ heap_ids s → gone rid s → fresh_run s acts = true →
  gone rid (run s acts).1.
Proof.
  revert s. induction acts as [|a acts IH]; intros s Hwf Hin Hg Hfresh;
    [done|].
  simpl in Hfresh. apply andb_prop in Hfresh as [Hfa Hfr].
  rewrite run_cons. cbn [fst].
  apply IH; [by apply wf_step| |by apply gone_step|done].
  apply list_elem_of_lookup in Hin as [ref Hin].
  eapply list_elem_of_lookup_2. by apply ids_kept_step.
Qed.

Lemma ids_kept_run s acts ref k :
  heap_ids s !! ref = Some k → heap_ids (run s acts).1 !! ref = Some k.
Proof.
  revert s. induction acts as [|a acts IH]; intros s H; [done|].
  rewrite run_cons. cbn [fst]. apply IH. by apply ids_kept_step.
Qed.

(** X19. A removed reminder stays out: in every run that follows
    the removal (ids fresh), the store has no entry for its id and its
    object remains inactive. *)
Theorem removed_reminder_stays_out (s : App) (rid : string) (ref : nat)
    (acts : list Action) :
  wf s →
  reminders s !! rid = Some ref →
  let s1 := (_remove_reminder s rid).1 in
  fresh_run s1 acts = true →
  let s' := (run s1 acts).1 in
  reminders s' !! rid = None ∧
  ∃ r, heap s' !! ref = Some r ∧ reminder_id r = rid ∧ is_active r = false.
Proof.
  intros Hwf Hrid s1 Hfresh s'.
  pose proof Hwf as [Hids _ Hst]. pose proof (Hst _ _ Hrid) as Hidx.
  assert (wf s1) as Hwf1 by (by apply (wf_step s (ARemove rid))).
  assert (heap_ids s1 !! ref = Some rid) as Hidx1
    by (by apply (ids_kept_step s (ARemove rid))).
  assert (gone rid s1) as Hg.
  { subst s1. rewrite (remove_found _ _ _ Hrid). split.
    - proj_simpl. apply lookup_delete_eq.
    - proj_simpl. intros ref' r Hr Hid.
      assert (ref' = ref) as ->.
      { eapply NoDup_lookup; [exact Hids| |exact Hidx].
        unfold heap_ids. rewrite <- (heap_ids_alter deactivate ref) by done.
        rewrite list_lookup_fmap, Hr. simpl. by rewrite Hid. }
      rewrite list_lookup_alter_eq in Hr.
      destruct (heap s !! ref); [|done]. simpl in Hr. by injection Hr as <-. }
  destruct (gone_run rid s1 acts Hwf1) as [Hout Hina]; [|done..|].
  { by eapply list_elem_of_lookup_2. }
  fold s' in Hout, Hina. split; [done|].
  pose proof (ids_kept_run s1 acts _ _ Hidx1) as Hx. fold s' in Hx.
  unfold heap_ids in Hx. rewrite list_lookup_fmap in Hx.
  destruct (heap s' !! ref) as [r|] eqn:Hr; [|done].
  simpl in Hx. injection Hx as Hid. exists r. split; [done|].
  split; [done|]. by eapply Hina.
Qed.

(** ** The handler after closing *)

Lemma handler_closing_step s a :
  handler_closing s →
  handler_closing (step s a).1 ∧ dispatched (step s a).2 = [] ∧
  notification_queue s `prefix_of` notification_queue (step s a).1.
Proof.
  intros [Hstop Hh]. unfold handler_closing.
  step_cases a; cbn [dispatched omap list_omap]; try done.
  all: try congruence.
  all: try (repeat split; try done; by apply prefix_app_r).
  by rewrite H.
Qed.

(** X20. Once [on_closing] has set [stop_event], a handler that is
    not waiting in [get] dispatches nothing more: in every run the
    notifications already queued stay in the queue, in order, at its
    front. *)
Theorem nothing_dispatched_after_closing (s : App) (acts : list Action) :
  handler s ≠ HGet →
  dispatched (run (on_closing s) acts).2 = [] ∧
  notification_queue s `prefix_of` notification_queue (run (on_closing s) acts).1.
Proof.
  intros Hh.
  assert (handler_closing (on_closing s)) as Hc by (by split).
  change (notification_queue s) with (notification_queue (on_closing s)).
  revert Hc. generalize (on_closing s). clear s Hh.
  induction acts as [|a acts IH]; intros s Hc; [done|].
  rewrite run_cons. cbn [fst snd]. rewrite dispatched_app.
  destruct (handler_closing_step s a Hc) as (Hc' & -> & Hq).
  destruct (IH _ Hc') as [-> Hq']. split; [done|]. by etrans.
Qed.

(** ** The form filled by [_edit_reminder] *)

Section EditForm.

Arguments digit_char : simpl never.

Lemma strip_strftime_time t :
  valid t = true → strip (strftime_time t) = strftime_time t.
Proof.
  intros Hv. unfold valid in Hv.
  do 8 (apply andb_prop in Hv as [Hv ?]).
  unfold strip, strftime_time, pad2. cbv [append]. cbn [lstrip].
  rewrite is_space_digit_char by (Z.div_mod_to_equations; lia).
  cbn [rstrip].
  rewrite !is_space_digit_char by (Z.div_mod_to_equations; lia).
  reflexivity.
Qed.

Lemma edit_fields_parse t :
  valid t = true →
  strptime (strftime_date t +:+ " " +:+ strip (strftime_time t))
  = Some (truncate_minute t).
Proof.
  intros Hv. rewrite strip_strftime_time by done.
  rewrite <- (strptime_strftime t Hv). reflexivity.
Qed.

End EditForm.

(** X21. The date and time texts that [_edit_reminder] puts in the
    form parse back to the reminder's trigger time (to the minute), so
    submitting the form of an expired reminder without changing its
    time is rejected as lying in the past, and nothing changes. *)
Theorem expired_reminder_resubmitted_is_rejected (s : App) (f : Form)
    (uuid : string) (t : datetime) :
  valid t = true →
  ltb (truncate_minute t) (now s) = true →
  strip (title_entry f) ≠ "" →
  date_picker f = strftime_date t →
  time_entry f = strftime_time t →
  strptime (date_picker f +:+ " " +:+ strip (time_entry f))
    = Some (truncate_minute t) ∧
  _add_reminder s f uuid
  = (s, [ShowError "You cannot set a reminder in the past."]).
Proof.
  intros Hv Hpast Ht Hd Htm.
  assert (strptime (date_picker f +:+ " " +:+ strip (time_entry f))
          = Some (truncate_minute t)) as E
    by (rewrite Hd, Htm; by apply edit_fields_parse).
  split; [exact E|]. unfold _add_reminder.
  rewrite decide_False by done. by rewrite E, Hpast.
Qed.

(** ** The further properties at concrete runs *)

Lemma sample_file_distinct :
  NoDup (map d_id (default [] (Some sample_file))).
Proof. apply (bool_decide_unpack _). vm_compute. exact I. Qed.

Lemma sample_run_fresh :
  fresh_run (startup ten_o_clock (Some sample_file)) sample_run = true.
Proof. vm_compute. reflexivity. Qed.

Lemma sample_state_wf : wf sample_state.
Proof.
  destruct (startup_inv ten_o_clock (Some sample_file) sample_file_distinct)
    as [Hwf _].
  exact (wf_run _ _ Hwf sample_run_fresh).
Qed.

Lemma tea_accepted : accepted (startup ten_o_clock None) tea_at_10_05 five_past_ten.
Proof.
  split; [|split]; [|vm_compute; reflexivity..].
  intros H. vm_compute in H. discriminate H.
Qed.

Lemma store_files_each_reminder_under_its_id_witness :
  (NoDup (map d_id (default [] (Some sample_file))) ∧
   fresh_run (startup ten_o_clock (Some sample_file)) sample_run = true) ∧
  "u1" ∈ dom (reminders sample_state) ∧
  NoDup (map reminder_id (heap sample_state)).
Proof.
  split; [split; [exact sample_file_distinct|exact sample_run_fresh]|].
  destruct (store_files_each_reminder_under_its_id ten_o_clock
              (Some sample_file) sample_run sample_file_distinct
              sample_run_fresh) as [Hdom Hnd].
  split; [|exact Hnd]. apply Hdom.
  exists 2%nat, tea_reminder. vm_compute. repeat split; reflexivity.
Defined.

Lemma no_two_monitors_share_a_reminder_witness :
  let th := mk_Monitor 2 MLoopTest ten_o_clock in
  (threads sample_state !! 1%nat = Some th ∧
   heap sample_state !! m_reminder th = Some tea_reminder) ∧
  1%nat = 1%nat.
Proof.
  intros th.
  assert (threads sample_state !! 1%nat = Some th) as Hth
    by (vm_compute; reflexivity).
  assert (heap sample_state !! m_reminder th = Some tea_reminder) as Hr
    by (vm_compute; reflexivity).
  split; [by split|].
  exact (no_two_monitors_share_a_reminder ten_o_clock (Some sample_file)
           sample_run 1 1 th th tea_reminder tea_reminder
           sample_file_distinct sample_run_fresh Hth Hth Hr Hr eq_refl).
Defined.

Lemma saved_file_has_one_entry_per_stored_id_witness :
  (NoDup (map d_id (default [] (Some sample_file))) ∧
   fresh_run (startup ten_o_clock (Some sample_file)) sample_run = true) ∧
  NoDup (map d_id (_save_reminders sample_state)) ∧
  length (_save_reminders sample_state) = 3%nat.
Proof.
  split; [split; [exact sample_file_distinct|exact sample_run_fresh]|].
  destruct (saved_file_has_one_entry_per_stored_id ten_o_clock
              (Some sample_file) sample_run sample_file_distinct
              sample_run_fresh) as (Hnd & _ & Hlen).
  split; [exact Hnd|].
  transitivity (size (reminders sample_state));
    [exact Hlen|vm_compute; reflexivity].
Defined.



Lemma due_monitor_fires_witness :
  (threads sample_due !! 1%nat = Some (mk_Monitor 2 MLoopTest ten_o_clock) ∧
   heap sample_due !! 2%nat = Some tea_reminder ∧
   stop_event sample_due = false ∧
   is_Some (monitoring_threads sample_due !! "u1") ∧
   geb (now sample_due) five_past_ten = true) ∧
  (run sample_due (replicate 8 (AMonitor 1))).2
  = [Enqueued 1 "u1" (mk_Notification "Tea" "")].
Proof.
  assert (threads sample_due !! 1%nat
          = Some (mk_Monitor 2 MLoopTest ten_o_clock)) as Hth
    by (vm_compute; reflexivity).
  assert (heap sample_due !! 2%nat = Some tea_reminder) as Hr
    by (vm_compute; reflexivity).
  assert (stop_event sample_due = false) as Hstop
    by (vm_compute; reflexivity).
  assert (is_Some (monitoring_threads sample_due !! reminder_id tea_reminder))
    as Hmt by (vm_compute; eexists; reflexivity).
  assert (geb (now sample_due) (trigger_time tea_reminder) = true) as Hdue
    by (vm_compute; reflexivity).
  split; [exact (conj Hth (conj Hr (conj Hstop (conj Hmt Hdue))))|].
  exact (proj1 (due_monitor_fires sample_due 1 2 ten_o_clock tea_reminder
                  Hth Hr eq_refl Hstop Hmt Hdue)).
Defined.

Lemma early_monitor_sleeps_witness :
  (threads sample_state !! 1%nat
   = Some (mk_Monitor 2 MLoopTest ten_o_clock) ∧
   heap sample_state !! 2%nat = Some tea_reminder ∧
   stop_event sample_state = false ∧
   is_Some (monitoring_threads sample_state !! "u1") ∧
   ltb (now sample_state) five_past_ten = true) ∧
  (run sample_state (replicate 6 (AMonitor 1))).2 = [].
Proof.
  assert (threads sample_state !! 1%nat
          = Some (mk_Monitor 2 MLoopTest ten_o_clock)) as Hth
    by (vm_compute; reflexivity).
  assert (heap sample_state !! 2%nat = Some tea_reminder) as Hr
    by (vm_compute; reflexivity).
  assert (stop_event sample_state = false) as Hstop
    by (vm_compute; reflexivity).
  assert (is_Some (monitoring_threads sample_state
                     !! reminder_id tea_reminder))
    as Hmt by (vm_compute; eexists; reflexivity).
  assert (ltb (now sample_state) (trigger_time tea_reminder) = true) as Hearly
    by (vm_compute; reflexivity).
  split; [exact (conj Hth (conj Hr (conj Hstop (conj Hmt Hearly))))|].
  by rewrite (early_monitor_sleeps sample_state 1 2 ten_o_clock tea_reminder
                Hth Hr eq_refl Hstop Hmt Hearly).
Defined.

Lemma nothing_enqueued_after_closing_witness :
  let acts := [ATick five_past_ten] ++ replicate 8 (AMonitor 1)
              ++ [AAdd tea_at_10_05 "u2"] ++ replicate 8 (AMonitor 2) in
  Forall (λ th, between_iterations (m_pc th) = true) (threads sample_state) ∧
  enqueued (run (on_closing sample_state) acts).2 = [].
Proof.
  intros acts.
  assert (Forall (λ th, between_iterations (m_pc th) = true)
            (threads sample_state)) as Hall
    by (vm_compute; repeat constructor).
  split; [exact Hall|].
  exact (nothing_enqueued_after_closing sample_state acts Hall).
Defined.

Lemma handler_drains_queue_witness :
  (handler sample_fired = HLoopTest ∧ stop_event sample_fired = false) ∧
  notification_queue sample_fired = [mk_Notification "Tea" ""] ∧
  (run sample_fired
     (replicate (2 * length (notification_queue sample_fired)) AHandler)).2
  = Dispatched <$> notification_queue sample_fired.
Proof.
  assert (handler sample_fired = HLoopTest) as Hh by (vm_compute; reflexivity).
  assert (stop_event sample_fired = false) as Hstop
    by (vm_compute; reflexivity).
  split; [exact (conj Hh Hstop)|]. split; [vm_compute; reflexivity|].
  by rewrite (handler_drains_queue sample_fired Hh Hstop).
Defined.

Lemma added_reminder_fires_when_due_witness :
  let s := startup ten_o_clock None in
  (accepted s tea_at_10_05 five_past_ten ∧
   editing (editing_reminder_id s) = None ∧
   stop_event s = false ∧
   leb (now s) five_past_ten = true ∧
   geb five_past_ten five_past_ten = true) ∧
  enqueued (run s ([AAdd tea_at_10_05 "u1"; ATick five_past_ten]
                   ++ replicate 8 (AMonitor 0))).2
  = [mk_Notification "Tea" ""].
Proof.
  intros s.
  split; [exact (conj tea_accepted
                   (conj eq_refl (conj eq_refl (conj eq_refl eq_refl))))|].
  exact (proj1 (added_reminder_fires_when_due s tea_at_10_05 "u1"
                  five_past_ten five_past_ten tea_accepted
                  eq_refl eq_refl eq_refl eq_refl)).
Defined.

Lemma malformed_entry_drops_the_rest_witness :
  let ds1 := [mk_reminder_data "r0" "Walk" "" "2024-01-01 10:30" true] in
  let d := mk_reminder_data "r1" "Pills" "" "tomorrow" true in
  let ds2 := [mk_reminder_data "r2" "Call" "" "2024-01-01 11:00" true] in
  (Forall (λ d', is_Some (strptime (d_trigger_time d'))) ds1 ∧
   strptime (d_trigger_time d) = None) ∧
  startup ten_o_clock (Some (ds1 ++ d :: ds2))
  = startup ten_o_clock (Some ds1).
Proof.
  intros ds1 d ds2.
  assert (Forall (λ d', is_Some (strptime (d_trigger_time d'))) ds1) as Hp.
  { repeat constructor. vm_compute. eexists. reflexivity. }
  assert (strptime (d_trigger_time d) = None) as Hd
    by (vm_compute; reflexivity).
  split; [exact (conj Hp Hd)|].
  exact (malformed_entry_drops_the_rest ten_o_clock ds1 ds2 d Hp Hd).
Defined.



Lemma walk_at_11_accepted :
  accepted sample_state
    (mk_Form " Walk " "in the park" "2024-01-01" "11:00")
    (mk_datetime 2024 1 1 11 0 0 0).
Proof.
  split; [|split]; [|vm_compute; reflexivity..].
  intros H. vm_compute in H. discriminate H.
Qed.

Lemma edit_updates_in_place_witness :
  let f := mk_Form " Walk " "in the park" "2024-01-01" "11:00" in
  let s' := (run sample_state [AEdit "r0"; AAdd f "u9"]).1 in
  (reminders sample_state !! "r0" = Some 0%nat ∧
   accepted sample_state f (mk_datetime 2024 1 1 11 0 0 0)) ∧
  threads s' = threads sample_state ∧
  editing_reminder_id s' = AttrNone.
Proof.
  intros f s'.
  assert (reminders sample_state !! "r0" = Some 0%nat) as Hrid
    by (vm_compute; reflexivity).
  assert ("r0" ≠ "") as Hne by discriminate.
  split; [exact (conj Hrid walk_at_11_accepted)|].
  destruct (edit_updates_in_place sample_state "r0" 0 f "u9"
              (mk_datetime 2024 1 1 11 0 0 0) Hrid Hne walk_at_11_accepted)
    as (_ & _ & Hth & _ & _ & Hed).
  exact (conj Hth Hed).
Defined.

Lemma empty_id_edit_adds_a_reminder_witness :
  let s := startup ten_o_clock
             (Some [mk_reminder_data "" "Ghost" "" "2024-01-01 10:30" true]) in
  let f := mk_Form " Walk " "in the park" "2024-01-01" "11:00" in
  let s' := (run s [AEdit ""; AAdd f "u9"]).1 in
  (reminders s !! "" = Some 0%nat ∧
   accepted s f (mk_datetime 2024 1 1 11 0 0 0)) ∧
  length (threads s') = S (length (threads s)) ∧
  editing_reminder_id s' = AttrId "".
Proof.
  intros s f s'.
  assert (reminders s !! "" = Some 0%nat) as Hrid by (vm_compute; reflexivity).
  assert (accepted s f (mk_datetime 2024 1 1 11 0 0 0)) as Hacc.
  { split; [|split]; [|vm_compute; reflexivity..].
    intros H. vm_compute in H. discriminate H. }
  split; [exact (conj Hrid Hacc)|].
  destruct (empty_id_edit_adds_a_reminder s 0 f "u9"
              (mk_datetime 2024 1 1 11 0 0 0) Hrid Hacc)
    as (_ & _ & Hlen & Hed).
  exact (conj Hlen Hed).
Defined.

Lemma edit_mode_survives_removal_witness :
  let f := mk_Form " Walk " "in the park" "2024-01-01" "11:00" in
  let s2 := (run sample_state [AEdit "u1"; ARemove "u1"]).1 in
  (reminders sample_state !! "u1" = Some 2%nat ∧
   accepted s2 f (mk_datetime 2024 1 1 11 0 0 0)) ∧
  _add_reminder s2 f "u9" = (s2, [MainRaised (KeyError "u1")]).
Proof.
  intros f s2.
  assert (reminders sample_state !! "u1" = Some 2%nat) as Hrid
    by (vm_compute; reflexivity).
  assert ("u1" ≠ "") as Hne by discriminate.
  assert (accepted s2 f (mk_datetime 2024 1 1 11 0 0 0)) as Hacc.
  { split; [|split]; [|vm_compute; reflexivity..].
    intros H. vm_compute in H. discriminate H. }
  split; [exact (conj Hrid Hacc)|].
  exact (edit_mode_survives_removal sample_state "u1" 2 f "u9"
           (mk_datetime 2024 1 1 11 0 0 0) Hrid Hne Hacc).
Defined.

Lemma removal_leaves_the_others_witness :
  let s' := (_remove_reminder sample_state "u1").1 in
  (wf sample_state ∧
   is_Some (reminders sample_state !! "u1") ∧
   reminders sample_state !! "r0" = Some 0%nat) ∧
  reminders s' !! "r0" = Some 0%nat ∧
  heap s' !! 0%nat = heap sample_state !! 0%nat.
Proof.
  intros s'.
  assert (is_Some (reminders sample_state !! "u1")) as Hrid
    by (vm_compute; eexists; reflexivity).
  assert ("r0" ≠ "u1") as Hne by discriminate.
  assert (reminders sample_state !! "r0" = Some 0%nat) as Hk
    by (vm_compute; reflexivity).
  split; [exact (conj sample_state_wf (conj Hrid Hk))|].
  destruct (removal_leaves_the_others sample_state "u1" "r0" 0
              sample_state_wf Hrid Hne Hk) as (H1 & H2 & _).
  exact (conj H1 H2).
Defined.

Lemma handle_stays_until_removal_witness :
  let acts := ATick five_past_ten :: replicate 8 (AMonitor 1) in
  ((ARemove "u1" ∉ acts) ∧
   is_Some (monitoring_threads sample_state !! "u1")) ∧
  m_pc <$> threads (run sample_state acts).1 !! 1%nat = Some MExited ∧
  is_Some (monitoring_threads (run sample_state acts).1 !! "u1").
Proof.
  intros acts.
  assert (ARemove "u1" ∉ acts) as Hno.
  { intros H. repeat (apply elem_of_cons in H as [H|H]; [discriminate H|]).
    by apply elem_of_nil in H. }
  assert (is_Some (monitoring_threads sample_state !! "u1")) as Hk
    by (vm_compute; eexists; reflexivity).
  split; [exact (conj Hno Hk)|]. split; [vm_compute; reflexivity|].
  exact (handle_stays_until_removal sample_state acts "u1" Hno Hk).
Defined.

Lemma removed_reminder_stays_out_witness :
  let s1 := (_remove_reminder sample_state "u1").1 in
  let acts := [AEdit "u1"; AAdd tea_at_10_05 "u2"; ATick five_past_ten]
              ++ replicate 8 (AMonitor 1) in
  (wf sample_state ∧
   reminders sample_state !! "u1" = Some 2%nat ∧
   fresh_run s1 acts = true) ∧
  reminders (run s1 acts).1 !! "u1" = None ∧
  ∃ r, heap (run s1 acts).1 !! 2%nat = Some r ∧ reminder_id r = "u1" ∧
       is_active r = false.
Proof.
  intros s1 acts.
  assert (reminders sample_state !! "u1" = Some 2%nat) as Hrid
    by (vm_compute; reflexivity).
  assert (fresh_run s1 acts = true) as Hf by (vm_compute; reflexivity).
  split; [exact (conj sample_state_wf (conj Hrid Hf))|].
  exact (removed_reminder_stays_out sample_state "u1" 2 acts
           sample_state_wf Hrid Hf).
Defined.

Lemma nothing_dispatched_after_closing_witness :
  let acts := [AHandler; AHandler; AHandler] in
  handler sample_fired ≠ HGet ∧
  notification_queue sample_fired = [mk_Notification "Tea" ""] ∧
  dispatched (run (on_closing sample_fired) acts).2 = [].
Proof.
  intros acts.
  assert (handler sample_fired ≠ HGet) as Hh.
  { intros H. vm_compute in H. discriminate H. }
  split; [exact Hh|]. split; [vm_compute; reflexivity|].
  exact (proj1 (nothing_dispatched_after_closing sample_fired acts Hh)).
Defined.

Lemma expired_reminder_resubmitted_is_rejected_witness :
  let s := with_now (mk_datetime 2024 1 1 11 0 0 0) sample_state in
  let f := mk_Form "Tea" "" (strftime_date five_past_ten)
             (strftime_time five_past_ten) in
  (valid five_past_ten = true ∧
   ltb (truncate_minute five_past_ten) (now s) = true ∧
   strip (title_entry f) ≠ "") ∧
  _add_reminder s f "u9"
  = (s, [ShowError "You cannot set a reminder in the past."]).
Proof.
  intros s f.
  assert (strip (title_entry f) ≠ "") as Ht.
  { intros H. vm_compute in H. discriminate H. }
  split; [exact (conj eq_refl (conj eq_refl Ht))|].
  exact (proj2 (expired_reminder_resubmitted_is_rejected s f "u9"
                  five_past_ten eq_refl eq_refl Ht eq_refl eq_refl)).
Defined.
